(** * Statement attribute handling (lib/Sema/SemaStmtAttr.cpp)

    A shallow embedding of clang's statement-attribute processing: the
    fallthrough validator, the loop-hint parser, the compatibility check
    over the validated records and the binder that wraps the statement.

    Sema is a mutable object in the source; here it is a record threaded
    through a state-and-abort monad.  Pointers to immutable AST nodes are
    modelled by the nodes themselves, a null pointer by [None]. *)

From Stdlib Require Import ZArith String List Bool Lia.
From stdpp Require Import base list.
Import ListNotations.

(** ** Source locations and ranges *)

Definition SourceLocation := nat.

Record SourceRange := mkSourceRange {
  getBegin : SourceLocation;
  getEnd : SourceLocation
}.

(** The implicit conversion [SourceRange(SourceLocation)] that the source
    relies on when it streams a location into a diagnostic. *)
Definition SourceRange_of (L : SourceLocation) : SourceRange :=
  mkSourceRange L L.

(** ** Machine integers

    [ValueInt] is a C++ [int]; [APSInt::getSExtValue] yields an [int64_t].
    The narrowing conversion keeps the low 32 bits, read as two's
    complement. *)

Definition int_of_int64 (v : Z) : Z :=
  ((v + 2 ^ 31) mod 2 ^ 32 - 2 ^ 31)%Z.

Definition fits_int (v : Z) : Prop := (- 2 ^ 31 <= v < 2 ^ 31)%Z.

(** ** Attributes *)

(** [LoopHintAttr::OptionType]. *)
Inductive OptionType :=
| Vectorize
| VectorizeWidth
| Interleave
| InterleaveCount
| Unroll
| UnrollCount.

Definition OptionType_eqb (a b : OptionType) : bool :=
  match a, b with
  | Vectorize, Vectorize
  | VectorizeWidth, VectorizeWidth
  | Interleave, Interleave
  | InterleaveCount, InterleaveCount
  | Unroll, Unroll
  | UnrollCount, UnrollCount => true
  | _, _ => false
  end.

(** The semantic attribute objects this file creates.  A [LoopHintAttr]
    built by [CreateImplicit] carries the implicit flag. *)
Inductive Attr :=
| FallThroughAttr (R : SourceRange) (SpellingListIndex : nat)
| LoopHintAttr (R : SourceRange) (Option : OptionType) (Value : Z)
    (Implicit : bool).

Definition isa_LoopHintAttr (I : Attr) : bool :=
  match I with LoopHintAttr _ _ _ _ => true | _ => false end.

(** ** Statements *)

Inductive StmtClass :=
| NullStmtClass
| CaseStmtClass
| DefaultStmtClass
| DoStmtClass
| ForStmtClass
| CXXForRangeStmtClass
| WhileStmtClass
| CompoundStmtClass
| DeclStmtClass
| IfStmtClass
| ReturnStmtClass
| AttributedStmtClass.

Definition StmtClass_eqb (a b : StmtClass) : bool :=
  match a, b with
  | NullStmtClass, NullStmtClass
  | CaseStmtClass, CaseStmtClass
  | DefaultStmtClass, DefaultStmtClass
  | DoStmtClass, DoStmtClass
  | ForStmtClass, ForStmtClass
  | CXXForRangeStmtClass, CXXForRangeStmtClass
  | WhileStmtClass, WhileStmtClass
  | CompoundStmtClass, CompoundStmtClass
  | DeclStmtClass, DeclStmtClass
  | IfStmtClass, IfStmtClass
  | ReturnStmtClass, ReturnStmtClass
  | AttributedStmtClass, AttributedStmtClass => true
  | _, _ => false
  end.

(** Only the class and the start location of a statement are observed by
    this file; the one node it builds is the attributed statement. *)
Inductive Stmt :=
| PlainStmt (sClass : StmtClass) (LocStart : SourceLocation)
| AttributedStmt (AttrLoc : SourceLocation) (Attrs : list Attr)
    (SubStmt : Stmt).

Definition getStmtClass (St : Stmt) : StmtClass :=
  match St with
  | PlainStmt c _ => c
  | AttributedStmt _ _ _ => AttributedStmtClass
  end.

Definition getLocStart (St : Stmt) : SourceLocation :=
  match St with
  | PlainStmt _ L => L
  | AttributedStmt L _ _ => L
  end.

Definition isa_NullStmt (St : Stmt) : bool :=
  StmtClass_eqb (getStmtClass St) NullStmtClass.

(** [SwitchCase] is the common base of [CaseStmt] and [DefaultStmt]. *)
Definition isa_SwitchCase (St : Stmt) : bool :=
  StmtClass_eqb (getStmtClass St) CaseStmtClass
  || StmtClass_eqb (getStmtClass St) DefaultStmtClass.

(** ** Diagnostics *)

Inductive DiagID :=
| err_fallthrough_attr_wrong_target
| note_fallthrough_insert_semi_fixit
| err_fallthrough_attr_outside_switch
| err_pragma_loop_precedes_nonloop
| err_pragma_loop_invalid_keyword
| err_pragma_loop_invalid_value
| err_pragma_loop_compatibility
| warn_unhandled_ms_attribute_ignored
| warn_unknown_attribute_ignored
| err_attribute_invalid_on_stmt.

Inductive FixItHint :=
| CreateInsertion (InsertionLoc : SourceLocation) (Code : string).

(** What the source streams into a diagnostic builder with [<<]. *)
Inductive DiagArg :=
| DiagBool (b : bool)
| DiagString (s : string)
| DiagInt (v : Z)
| DiagIdentifier (name : string)
| DiagSourceRange (R : SourceRange)
| DiagFixIt (H : FixItHint).

Record Diagnostic := mkDiagnostic {
  DiagLoc : SourceLocation;
  DiagKind : DiagID;
  DiagArgs : list DiagArg
}.

(** ** The semantic analyser's state *)

Definition SwitchStmt := SourceLocation.

Record FunctionScopeInfo := mkFunctionScopeInfo {
  SwitchStack : list SwitchStmt
}.

(** Nodes handed out by the AST allocator, oldest first. *)
Inductive ASTNode :=
| NodeAttr (a : Attr)
| NodeStmt (s : Stmt).

Definition isNodeStmt (n : ASTNode) : bool :=
  match n with NodeStmt _ => true | NodeAttr _ => false end.

Record Sema := mkSema {
  getCurFunction : FunctionScopeInfo;
  Diags : list Diagnostic;
  Context : list ASTNode
}.

(** ** The monad: state passing over [Sema], with aborts *)

Inductive Fault :=
| NullDereference
| OutOfBounds
| AssertionFailure (msg : string)
| Unreachable (msg : string).

Inductive Outcome (A : Type) :=
| Returns (a : A) (S : Sema)
| Aborts (f : Fault).

Arguments Returns {A} a S.
Arguments Aborts {A} f.

Definition M (A : Type) : Type := Sema -> Outcome A.

Definition ret {A} (a : A) : M A := fun S => Returns a S.

Definition bind {A B} (m : M A) (k : A -> M B) : M B :=
  fun S =>
    match m S with
    | Returns a S' => k a S'
    | Aborts f => Aborts f
    end.

Definition abort {A} (f : Fault) : M A := fun _ => Aborts f.

Definition getSema : M Sema := fun S => Returns S S.

Declare Scope sema_scope.
Delimit Scope sema_scope with sema.
Notation "x <- m ;; k" := (bind m (fun x => k))
  (at level 100, m at next level, right associativity) : sema_scope.
Notation "m ;; k" := (bind m (fun _ => k))
  (at level 100, right associativity) : sema_scope.

(** Modelled from the spec: the diagnostic engine behind [S.Diag] is an
    external collaborator; only the emission contract is kept (location,
    message key, ordered arguments, optional fix-it), and an emitted
    diagnostic is appended to the shared sink. *)
Definition Diag (Loc : SourceLocation) (ID : DiagID) (args : list DiagArg)
  : M unit :=
  fun S =>
    Returns tt (mkSema (getCurFunction S)
                       (Diags S ++ [mkDiagnostic Loc ID args])
                       (Context S)).

(** Placement new into [S.Context]: the allocator only ever appends. *)
Definition allocate (n : ASTNode) : M unit :=
  fun S =>
    Returns tt (mkSema (getCurFunction S) (Diags S) (Context S ++ [n])).

(** ** External collaborators and the build

    The expression evaluator, LLVM's [APSInt], the lexer query behind
    [Sema::getLocForEndOfToken] and the generated name tables of
    [LoopHintAttr] live outside this file.  The code is verified against
    any implementation of them, and for builds with assertions compiled
    in as well as out. *)

Class ClangEnv := {
  (** Whether the build defines [NDEBUG], which compiles [assert] out. *)
  NDEBUG : bool;
  Expr : Type;
  APSInt : Type;
  (** [Expr::isIntegerConstantExpr(ValueAPS, S.Context)]: the evaluated
      constant when the expression is one. *)
  isIntegerConstantExpr : Expr -> option APSInt;
  (** [APSInt::getSExtValue], an [int64_t]. *)
  getSExtValue : APSInt -> Z;
  getLocForEndOfToken : SourceLocation -> SourceLocation;
  (** [LoopHintAttr::getOptionName] and [LoopHintAttr::getValueName]. *)
  getOptionName : OptionType -> string;
  getValueName : Z -> string
}.

(** The C [assert] macro: a failed assertion aborts, unless the build
    compiled assertions out, in which case nothing is evaluated. *)
Definition assert `{ClangEnv} (b : bool) (msg : string) : M unit :=
  if NDEBUG then ret tt
  else if b then ret tt else abort (AssertionFailure msg).

(** ** Parsed attributes *)

(** [AttributeList::Kind], as far as this file tells kinds apart; every
    other parsed kind is a declaration attribute. *)
Inductive AttrKind :=
| UnknownAttribute
| AT_FallThrough
| AT_LoopHint
| AT_DeclAttribute (k : nat).

Definition IdentifierInfo := string.

Record IdentifierLoc := mkIdentifierLoc {
  Loc : SourceLocation;
  Ident : option IdentifierInfo
}.

(** [ArgsUnion] is a [PointerUnion<Expr*, IdentifierLoc*>]: a tag and a
    pointer that may be null. *)
Inductive ArgsUnion `{ClangEnv} :=
| ArgExpr (e : option Expr)
| ArgIdent (il : option IdentifierLoc).

Record AttributeList `{ClangEnv} := mkAttributeList {
  getKind : AttrKind;
  getName : IdentifierInfo;
  getRange : SourceRange;
  isDeclspecAttribute : bool;
  getAttributeSpellingListIndex : nat;
  Args : list ArgsUnion
}.

Arguments mkAttributeList {H} getKind getName getRange isDeclspecAttribute
  getAttributeSpellingListIndex Args.

Definition getLoc `{ClangEnv} (A : AttributeList) : SourceLocation :=
  getBegin (getRange A).

Local Open Scope sema_scope.

(** Modelled from the spec: the argument accessors of [AttributeList] are
    declared outside this file.  An argument list is an ordered list of
    slots, each an identifier or an expression; reading a slot that does
    not exist, or reading it at the other type, trips the accessor's
    assertion.  A slot may hold a null pointer. *)
Definition getArg `{ClangEnv} (A : AttributeList) (Arg : nat) : M ArgsUnion :=
  match Args A !! Arg with
  | Some a => ret a
  | None => abort (AssertionFailure "Arg access out of range!")
  end.

Definition getArgAsIdent `{ClangEnv} (A : AttributeList) (Arg : nat)
  : M (option IdentifierLoc) :=
  a <- getArg A Arg ;;
  match a with
  | ArgIdent il => ret il
  | ArgExpr _ => abort (AssertionFailure "Invalid accessor called")
  end.

Definition getArgAsExpr `{ClangEnv} (A : AttributeList) (Arg : nat)
  : M (option Expr) :=
  a <- getArg A Arg ;;
  match a with
  | ArgExpr e => ret e
  | ArgIdent _ => abort (AssertionFailure "Invalid accessor called")
  end.

(** A pointer used as a condition. *)
Definition notNull {A : Type} (p : option A) : bool :=
  match p with Some _ => true | None => false end.

(** Reading a member through a pointer: null aborts. *)
Definition deref {A : Type} (p : option A) : M A :=
  match p with
  | Some a => ret a
  | None => abort NullDereference
  end.

(** ** handleFallThroughAttr *)

Definition handleFallThroughAttr `{ClangEnv} (St : Stmt) (A : AttributeList)
    (Range : SourceRange) : M (option Attr) :=
  if negb (isa_NullStmt St) then
    Diag (getBegin (getRange A)) err_fallthrough_attr_wrong_target
         [DiagSourceRange (SourceRange_of (getLocStart St))] ;;
    (if isa_SwitchCase St then
       let L := getLocForEndOfToken (getEnd Range) in
       Diag L note_fallthrough_insert_semi_fixit
            [DiagFixIt (CreateInsertion L ";")]
     else ret tt) ;;
    ret None
  else
    S <- getSema ;;
    if bool_decide (SwitchStack (getCurFunction S) = []) then
      Diag (getBegin (getRange A)) err_fallthrough_attr_outside_switch [] ;;
      ret None
    else
      let a := FallThroughAttr (getRange A) (getAttributeSpellingListIndex A) in
      allocate (NodeAttr a) ;;
      ret (Some a).

(** ** handleLoopHintAttr *)

Definition isLoopStmtClass (c : StmtClass) : bool :=
  negb (negb (StmtClass_eqb c DoStmtClass)
        && negb (StmtClass_eqb c ForStmtClass)
        && negb (StmtClass_eqb c CXXForRangeStmtClass)
        && negb (StmtClass_eqb c WhileStmtClass)).

(** The [llvm::StringSwitch] over the option's spelling. *)
Definition OptionSwitch (Name : string) : OptionType :=
  if String.eqb Name "vectorize" then Vectorize
  else if String.eqb Name "vectorize_width" then VectorizeWidth
  else if String.eqb Name "interleave" then Interleave
  else if String.eqb Name "interleave_count" then InterleaveCount
  else if String.eqb Name "unroll" then Unroll
  else if String.eqb Name "unroll_count" then UnrollCount
  else Vectorize.

Definition isEnableOption (Option : OptionType) : bool :=
  OptionType_eqb Option Vectorize
  || OptionType_eqb Option Interleave
  || OptionType_eqb Option Unroll.

Definition isNumericOption (Option : OptionType) : bool :=
  OptionType_eqb Option VectorizeWidth
  || OptionType_eqb Option InterleaveCount
  || OptionType_eqb Option UnrollCount.

(** [LoopHintAttr::CreateImplicit]: allocate the attribute and mark it
    implicit. *)
Definition CreateImplicit (Option : OptionType) (Value : Z)
    (R : SourceRange) : M Attr :=
  let a := LoopHintAttr R Option Value true in
  allocate (NodeAttr a) ;;
  ret a.

Definition handleLoopHintAttr `{ClangEnv} (St : Stmt) (A : AttributeList)
    (_ : SourceRange) : M (option Attr) :=
  if negb (isLoopStmtClass (getStmtClass St)) then
    Diag (getLocStart St) err_pragma_loop_precedes_nonloop [] ;;
    ret None
  else
    OptionLoc <- getArgAsIdent A 0 ;;
    OptionLoc' <- deref OptionLoc ;;
    let OptionInfo := Ident OptionLoc' in
    ValueLoc <- getArgAsIdent A 1 ;;
    ValueLoc' <- deref ValueLoc ;;
    let ValueInfo := Ident ValueLoc' in
    ValueExpr <- getArgAsExpr A 2 ;;
    assert (notNull OptionInfo) "Attribute must have valid option info." ;;
    OptionName <- deref OptionInfo ;;
    let Option := OptionSwitch OptionName in
    if isEnableOption Option then
      match ValueInfo with
      | None =>
          Diag (Loc ValueLoc') err_pragma_loop_invalid_keyword [] ;;
          ret None
      | Some ValueName =>
          if String.eqb ValueName "disable" then
            a <- CreateImplicit Option 0 (getRange A) ;; ret (Some a)
          else if String.eqb ValueName "enable" then
            a <- CreateImplicit Option 1 (getRange A) ;; ret (Some a)
          else
            Diag (Loc ValueLoc') err_pragma_loop_invalid_keyword [] ;;
            ret None
      end
    else if isNumericOption Option then
      match ValueExpr with
      | None =>
          Diag (Loc ValueLoc') err_pragma_loop_invalid_value [] ;;
          ret None
      | Some E =>
          match isIntegerConstantExpr E with
          | None =>
              Diag (Loc ValueLoc') err_pragma_loop_invalid_value [] ;;
              ret None
          | Some ValueAPS =>
              let ValueInt := int_of_int64 (getSExtValue ValueAPS) in
              if (ValueInt <? 1)%Z then
                Diag (Loc ValueLoc') err_pragma_loop_invalid_value [] ;;
                ret None
              else
                a <- CreateImplicit Option ValueInt (getRange A) ;;
                ret (Some a)
          end
      end
    else
      abort (Unreachable "Unknown loop hint option").

(** ** CheckForIncompatibleAttributes *)

(** One entry of the local [Options] array. *)
Record CategoryState := mkCategoryState {
  EnableOptionId : OptionType;
  NumericOptionId : OptionType;
  EnabledIsSet : bool;
  ValueIsSet : bool;
  Enabled : bool;
  Value : Z
}.

Definition Options0 : list CategoryState :=
  [ mkCategoryState Vectorize VectorizeWidth false false false 0;
    mkCategoryState Interleave InterleaveCount false false false 0;
    mkCategoryState Unroll UnrollCount false false false 0 ].

Definition CategoryOf (Option : OptionType) : nat :=
  match Option with
  | Vectorize | VectorizeWidth => 0
  | Interleave | InterleaveCount => 1
  | Unroll | UnrollCount => 2
  end.

(** Storing an [int] into a [bool] member, and reading it back as [int]. *)
Definition bool_of_int (v : Z) : bool := negb (v =? 0)%Z.
Definition int_of_bool (b : bool) : Z := if b then 1%Z else 0%Z.

Definition setEnabled (St : CategoryState) (ValueInt : Z) : CategoryState :=
  mkCategoryState (EnableOptionId St) (NumericOptionId St)
                  true (ValueIsSet St) (bool_of_int ValueInt) (Value St).

Definition setValue (St : CategoryState) (ValueInt : Z) : CategoryState :=
  mkCategoryState (EnableOptionId St) (NumericOptionId St)
                  (EnabledIsSet St) true (Enabled St) ValueInt.

(** The condition tested at the end of the loop body. *)
Definition disabledWithValue (St : CategoryState) : bool :=
  EnabledIsSet St && negb (Enabled St) && ValueIsSet St.

(** The body of the range-for loop, for one element [I_] of [Attrs]; the
    [Options] array is threaded through. *)
Definition checkAttr `{ClangEnv} (I_ : Attr) (Options : list CategoryState)
  : M (list CategoryState) :=
  match I_ with
  | LoopHintAttr R Option ValueInt _ =>
      let Category := CategoryOf Option in
      match Options !! Category with
      | None => abort OutOfBounds
      | Some CategoryState0 =>
          let ValueLoc := getEnd R in
          CategoryState1 <-
            (if isEnableOption Option then
               (if EnabledIsSet CategoryState0 then
                  Diag ValueLoc err_pragma_loop_compatibility
                       [DiagBool true;
                        DiagString (getOptionName Option);
                        DiagString
                          (getValueName (int_of_bool (Enabled CategoryState0)));
                        DiagString (getOptionName Option);
                        DiagString (getValueName ValueInt)]
                else ret tt) ;;
               ret (setEnabled CategoryState0 ValueInt)
             else
               (if ValueIsSet CategoryState0 then
                  Diag ValueLoc err_pragma_loop_compatibility
                       [DiagBool true;
                        DiagString (getOptionName Option);
                        DiagInt (Value CategoryState0);
                        DiagString (getOptionName Option);
                        DiagInt ValueInt]
                else ret tt) ;;
               ret (setValue CategoryState0 ValueInt)) ;;
          (if disabledWithValue CategoryState1 then
             Diag ValueLoc err_pragma_loop_compatibility
                  [DiagBool false;
                   DiagString (getOptionName (EnableOptionId CategoryState1));
                   DiagString
                     (getValueName (int_of_bool (Enabled CategoryState1)));
                   DiagString (getOptionName (NumericOptionId CategoryState1));
                   DiagInt (Value CategoryState1)]
           else ret tt) ;;
          ret (<[Category := CategoryState1]> Options)
      end
  | _ => ret Options
  end.

Fixpoint checkLoop `{ClangEnv} (Attrs : list Attr)
    (Options : list CategoryState) : M (list CategoryState) :=
  match Attrs with
  | [] => ret Options
  | I_ :: rest =>
      Options' <- checkAttr I_ Options ;;
      checkLoop rest Options'
  end.

(** [Attrs] is passed by reference; the vector as the call leaves it is
    returned.  Nothing in the body writes to it. *)
Definition CheckForIncompatibleAttributes `{ClangEnv} (Attrs : list Attr)
  : M (list Attr) :=
  checkLoop Attrs Options0 ;;
  ret Attrs.

(** ** ProcessStmtAttribute *)

Definition ProcessStmtAttribute `{ClangEnv} (St : Stmt) (A : AttributeList)
    (Range : SourceRange) : M (option Attr) :=
  match getKind A with
  | UnknownAttribute =>
      Diag (getLoc A)
           (if isDeclspecAttribute A
            then warn_unhandled_ms_attribute_ignored
            else warn_unknown_attribute_ignored)
           [DiagIdentifier (getName A)] ;;
      ret None
  | AT_FallThrough => handleFallThroughAttr St A Range
  | AT_LoopHint => handleLoopHintAttr St A Range
  | AT_DeclAttribute _ =>
      Diag (getBegin (getRange A)) err_attribute_invalid_on_stmt
           [DiagIdentifier (getName A);
            DiagSourceRange (SourceRange_of (getLocStart St))] ;;
      ret None
  end.

(** ** Sema::ProcessStmtAttributes *)

(** Modelled from the spec: [Sema::ActOnAttributedStmt] is defined in
    another file.  It allocates one attributed-statement node wrapping the
    original statement, anchored at the given location and carrying the
    full ordered record set, and returns it. *)
Definition ActOnAttributedStmt (AttrLoc : SourceLocation) (Attrs : list Attr)
    (SubStmt : Stmt) : M Stmt :=
  let LS := AttributedStmt AttrLoc Attrs SubStmt in
  allocate (NodeStmt LS) ;;
  ret LS.

(** The first loop: walk the attribute list and push every attribute that
    was accepted. *)
Fixpoint collectAttrs `{ClangEnv} (S : Stmt) (l : list AttributeList)
    (Range : SourceRange) (Attrs : list Attr) : M (list Attr) :=
  match l with
  | [] => ret Attrs
  | A :: next =>
      r <- ProcessStmtAttribute S A Range ;;
      collectAttrs S next Range
        (match r with Some a => Attrs ++ [a] | None => Attrs end)
  end.

Definition ProcessStmtAttributes `{ClangEnv} (S : Stmt)
    (AttrList : list AttributeList) (Range : SourceRange) : M Stmt :=
  Attrs <- collectAttrs S AttrList Range [] ;;
  Attrs <- CheckForIncompatibleAttributes Attrs ;;
  if bool_decide (Attrs = []) then ret S
  else ActOnAttributedStmt (getBegin Range) Attrs S.

(** ** A concrete environment

    Integer literals as expressions, with the name tables clang generates
    for [LoopHintAttr]; used to run the definitions on examples. *)

Inductive LitExpr :=
| IntegerLiteral (v : Z)
| DependentExpr.

Definition litOptionName (Option : OptionType) : string :=
  match Option with
  | Vectorize => "vectorize"
  | VectorizeWidth => "vectorize_width"
  | Interleave => "interleave"
  | InterleaveCount => "interleave_count"
  | Unroll => "unroll"
  | UnrollCount => "unroll_count"
  end.

Definition litValueName (v : Z) : string :=
  if (v =? 0)%Z then "disable" else "enable".

Definition LitEnv : ClangEnv := {|
  NDEBUG := false;
  Expr := LitExpr;
  APSInt := Z;
  isIntegerConstantExpr :=
    fun e => match e with IntegerLiteral v => Some v | DependentExpr => None end;
  getSExtValue := fun v => v;
  getLocForEndOfToken := fun L => S L;
  getOptionName := litOptionName;
  getValueName := litValueName
|}.

(** The same environment in a build with assertions compiled out. *)
Definition LitEnvRelease : ClangEnv := {|
  NDEBUG := true;
  Expr := LitExpr;
  APSInt := Z;
  isIntegerConstantExpr :=
    fun e => match e with IntegerLiteral v => Some v | DependentExpr => None end;
  getSExtValue := fun v => v;
  getLocForEndOfToken := fun L => S L;
  getOptionName := litOptionName;
  getValueName := litValueName
|}.

Definition emptySema (Stack : list SwitchStmt) : Sema :=
  mkSema (mkFunctionScopeInfo Stack) [] [].

(** ** Vocabulary for the statements below *)

(** [S] with the diagnostics [ds] appended to its sink, nothing else
    touched. *)
Definition addDiags (S : Sema) (ds : list Diagnostic) : Sema :=
  mkSema (getCurFunction S) (Diags S ++ ds) (Context S).

(** [S] after the allocator handed out the nodes [ns]. *)
Definition addNodes (S : Sema) (ns : list ASTNode) : Sema :=
  mkSema (getCurFunction S) (Diags S) (Context S ++ ns).

(** The incompatible variant of the compatibility diagnostic for a
    category whose tracker is [St], reported at [L]. *)
Definition incompatibleDiag `{ClangEnv} (L : SourceLocation)
    (St : CategoryState) : Diagnostic :=
  mkDiagnostic L err_pragma_loop_compatibility
    [DiagBool false;
     DiagString (getOptionName (EnableOptionId St));
     DiagString (getValueName (int_of_bool (Enabled St)));
     DiagString (getOptionName (NumericOptionId St));
     DiagInt (Value St)].

(** The duplicate variant, for a second enable/disable hint and for a
    second numeric hint. *)
Definition duplicateEnableDiag `{ClangEnv} (L : SourceLocation)
    (Option : OptionType) (Old : bool) (New : Z) : Diagnostic :=
  mkDiagnostic L err_pragma_loop_compatibility
    [DiagBool true;
     DiagString (getOptionName Option);
     DiagString (getValueName (int_of_bool Old));
     DiagString (getOptionName Option);
     DiagString (getValueName New)].

Definition duplicateValueDiag `{ClangEnv} (L : SourceLocation)
    (Option : OptionType) (Old New : Z) : Diagnostic :=
  mkDiagnostic L err_pragma_loop_compatibility
    [DiagBool true;
     DiagString (getOptionName Option);
     DiagInt Old;
     DiagString (getOptionName Option);
     DiagInt New].

Definition isIncompatibleDiag (d : Diagnostic) : bool :=
  match DiagKind d, DiagArgs d with
  | err_pragma_loop_compatibility, DiagBool false :: _ => true
  | _, _ => false
  end.

Definition isDuplicateDiag (d : Diagnostic) : bool :=
  match DiagKind d, DiagArgs d with
  | err_pragma_loop_compatibility, DiagBool true :: _ => true
  | _, _ => false
  end.

(** The six spellings the option switch knows. *)
Definition OptionSpellings : list string :=
  ["vectorize"; "vectorize_width"; "interleave"; "interleave_count";
   "unroll"; "unroll_count"]%string.

(** Inputs for the examples. *)
Definition fallthroughAt (R : SourceRange) (Index : nat)
  : @AttributeList LitEnv :=
  mkAttributeList AT_FallThrough "fallthrough"%string R false Index [].

Definition loopHintAt (R : SourceRange) (OptionName : string)
    (ValueName : option string) (E : option LitExpr)
  : @AttributeList LitEnv :=
  mkAttributeList AT_LoopHint "loop"%string R false 0
    [@ArgIdent LitEnv (Some (mkIdentifierLoc (getBegin R) (Some OptionName)));
     @ArgIdent LitEnv (Some (mkIdentifierLoc (S (getBegin R)) ValueName));
     @ArgExpr LitEnv E].

(** The tracker of a category once a record with option [Option] and
    value [ValueInt] has been stored in it. *)
Definition trackerAfter (Option : OptionType) (ValueInt : Z)
    (St : CategoryState) : CategoryState :=
  if isEnableOption Option then setEnabled St ValueInt
  else setValue St ValueInt.

(** The duplicate diagnostics a record raises against the tracker [St]. *)
Definition duplicateDiags `{ClangEnv} (L : SourceLocation)
    (Option : OptionType) (ValueInt : Z) (St : CategoryState)
  : list Diagnostic :=
  if isEnableOption Option then
    if EnabledIsSet St
    then [duplicateEnableDiag L Option (Enabled St) ValueInt] else []
  else
    if ValueIsSet St
    then [duplicateValueDiag L Option (Value St) ValueInt] else [].

(** The value a loop hint resolves to, or the error it is rejected with:
    the two branches of the handler read as one function of the resolved
    option, the value identifier and the value expression. *)
Definition loopHintValue `{ClangEnv} (Option : OptionType)
    (ValueInfo : option IdentifierInfo) (ValueExpr : option Expr)
  : DiagID + Z :=
  if isEnableOption Option then
    match ValueInfo with
    | None => inl err_pragma_loop_invalid_keyword
    | Some ValueName =>
        if String.eqb ValueName "disable" then inr 0%Z
        else if String.eqb ValueName "enable" then inr 1%Z
        else inl err_pragma_loop_invalid_keyword
    end
  else
    match ValueExpr with
    | None => inl err_pragma_loop_invalid_value
    | Some E =>
        match isIntegerConstantExpr E with
        | None => inl err_pragma_loop_invalid_value
        | Some ValueAPS =>
            if (int_of_int64 (getSExtValue ValueAPS) <? 1)%Z
            then inl err_pragma_loop_invalid_value
            else inr (int_of_int64 (getSExtValue ValueAPS))
        end
    end.

(** The nodes allocated for a handler's result. *)
Definition nodesOf (r : option Attr) : list ASTNode :=
  match r with Some a => [NodeAttr a] | None => [] end.

(** The argument shape the loop-hint handler is written for: slot 0 an
    identifier object with its identifier, slot 1 an identifier object
    (whose identifier may be null), slot 2 an expression slot (whose
    expression may be null). *)
Definition loopHintArgs `{ClangEnv} (A : AttributeList) : Prop :=
  exists L Name VL E rest,
    Args A = ArgIdent (Some (mkIdentifierLoc L (Some Name)))
             :: ArgIdent (Some VL) :: ArgExpr E :: rest.

(** Slots 0 and 1 hold identifier objects. *)
Definition identSlotsPresent `{ClangEnv} (A : AttributeList) : Prop :=
  exists OL VL,
    Args A !! 0 = Some (ArgIdent (Some OL)) /\
    Args A !! 1 = Some (ArgIdent (Some VL)).

(** The record one parsed attribute contributes, if any. *)
Definition recordOf `{ClangEnv} (St : Stmt) (Range : SourceRange) (S : Sema)
    (A : AttributeList) : option Attr :=
  match ProcessStmtAttribute St A Range S with
  | Returns r _ => r
  | Aborts _ => None
  end.

(** What the binder needs of a parsed attribute to go through: a loop
    hint placed on a loop has its arguments in shape. *)
Definition processable `{ClangEnv} (St : Stmt) (A : AttributeList) : Prop :=
  getKind A = AT_LoopHint ->
  isLoopStmtClass (getStmtClass St) = true ->
  loopHintArgs A.

(** The value range of a loop-hint record: 0 or 1 under an enable/disable
    option, a positive [int] under a numeric option. *)
Definition loopHintValueOk (Option : OptionType) (v : Z) : Prop :=
  if isEnableOption Option then v = 0%Z \/ v = 1%Z
  else (1 <= v < 2 ^ 31)%Z.

(** A record as the handlers build them: a fallthrough record, or an
    implicit loop hint whose value is in range. *)
Definition recordOk (a : Attr) : Prop :=
  match a with
  | FallThroughAttr _ _ => True
  | LoopHintAttr _ Option v Implicit =>
      Implicit = true /\ loopHintValueOk Option v
  end.

(** The value of the last loop hint with option [Option] in [Attrs]. *)
Fixpoint lastHint (Option : OptionType) (Attrs : list Attr) : option Z :=
  match Attrs with
  | [] => None
  | a :: rest =>
      match lastHint Option rest with
      | Some v => Some v
      | None =>
          match a with
          | LoopHintAttr _ Option' v _ =>
              if OptionType_eqb Option' Option then Some v else None
          | FallThroughAttr _ _ => None
          end
      end
  end.

(** The enable/disable option and the numeric option of the category an
    option belongs to, as the [Options] table pairs them. *)
Definition EnableOptionOf (Option : OptionType) : OptionType :=
  match Option with
  | Vectorize | VectorizeWidth => Vectorize
  | Interleave | InterleaveCount => Interleave
  | Unroll | UnrollCount => Unroll
  end.

Definition NumericOptionOf (Option : OptionType) : OptionType :=
  match Option with
  | Vectorize | VectorizeWidth => VectorizeWidth
  | Interleave | InterleaveCount => InterleaveCount
  | Unroll | UnrollCount => UnrollCount
  end.

(** The tracker of a category after the records [Attrs]: each half holds
    what the last hint with that option stored. *)
Definition trackerOf (Attrs : list Attr) (E N : OptionType) : CategoryState :=
  mkCategoryState E N
    (notNull (lastHint E Attrs)) (notNull (lastHint N Attrs))
    (bool_of_int (default 0%Z (lastHint E Attrs)))
    (default 0%Z (lastHint N Attrs)).

Definition OptionsOf (Attrs : list Attr) : list CategoryState :=
  [trackerOf Attrs Vectorize VectorizeWidth;
   trackerOf Attrs Interleave InterleaveCount;
   trackerOf Attrs Unroll UnrollCount].

(** The diagnostic the dispatcher raises for an attribute that is unknown
    or belongs on declarations. *)
Definition rejectionDiag `{ClangEnv} (St : Stmt) (A : AttributeList)
  : Diagnostic :=
  match getKind A with
  | UnknownAttribute =>
      mkDiagnostic (getLoc A)
        (if isDeclspecAttribute A
         then warn_unhandled_ms_attribute_ignored
         else warn_unknown_attribute_ignored)
        [DiagIdentifier (getName A)]
  | _ =>
      mkDiagnostic (getBegin (getRange A)) err_attribute_invalid_on_stmt
        [DiagIdentifier (getName A);
         DiagSourceRange (SourceRange_of (getLocStart St))]
  end.

Definition notStmtAttribute `{ClangEnv} (A : AttributeList) : Prop :=
  getKind A = UnknownAttribute \/ exists k, getKind A = AT_DeclAttribute k.

(** What checking one more record adds to the sink, given the records
    [l] checked before it. *)
Definition newDiags `{ClangEnv} (l : list Attr) (a : Attr) : list Diagnostic :=
  match a with
  | FallThroughAttr _ _ => []
  | LoopHintAttr R Option v _ =>
      let E := EnableOptionOf Option in
      let N := NumericOptionOf Option in
      duplicateDiags (getEnd R) Option v (trackerOf l E N) ++
      if disabledWithValue (trackerOf (l ++ [a]) E N)
      then [incompatibleDiag (getEnd R) (trackerOf (l ++ [a]) E N)]
      else []
  end.

(** Slots 0 and 1 hold identifier objects and the option's identifier is
    there: the condition the handler asserts before it reads the name. *)
Definition optionSlotsPresent `{ClangEnv} (A : AttributeList) : Prop :=
  exists OL Name VL,
    Args A !! 0 = Some (ArgIdent (Some OL)) /\
    Ident OL = Some Name /\
    Args A !! 1 = Some (ArgIdent (Some VL)).

(** * Properties *)

(** ** Bookkeeping on the state *)

Lemma addDiags_nil S : addDiags S [] = S.
Proof. destruct S; unfold addDiags; simpl; now rewrite app_nil_r. Qed.

Lemma addDiags_app S ds1 ds2 :
  addDiags (addDiags S ds1) ds2 = addDiags S (ds1 ++ ds2).
Proof. unfold addDiags; simpl; now rewrite app_assoc. Qed.

Lemma addNodes_nil S : addNodes S [] = S.
Proof. destruct S; unfold addNodes; simpl; now rewrite app_nil_r. Qed.

Lemma Diag_run L ID args S :
  Diag L ID args S = Returns tt (addDiags S [mkDiagnostic L ID args]).
Proof. reflexivity. Qed.

Lemma allocate_run n S : allocate n S = Returns tt (addNodes S [n]).
Proof. reflexivity. Qed.

Lemma bind_Returns {A B} (m : M A) (k : A -> M B) S a S' :
  m S = Returns a S' -> bind m k S = k a S'.
Proof. unfold bind; now intros ->. Qed.

Lemma bind_Aborts {A B} (m : M A) (k : A -> M B) S f :
  m S = Aborts f -> bind m k S = Aborts f.
Proof. unfold bind; now intros ->. Qed.

Ltac run_sema :=
  unfold bind, ret, abort, Diag, allocate, assert, getSema, deref,
    CreateImplicit, addDiags, addNodes in *; simpl in *.

(** ** The fallthrough validator *)

Lemma isa_NullStmt_not_SwitchCase St :
  isa_NullStmt St = true -> isa_SwitchCase St = false.
Proof.
  unfold isa_NullStmt, isa_SwitchCase.
  destruct (getStmtClass St); simpl; congruence.
Qed.

(** C1. Whatever the statement and the attribute, the handler returns, and
    it returns a FallThroughAttr record (carrying the attribute's own range
    and spelling-list index, freshly allocated) exactly when the statement
    is a null statement and the current function's switch stack is not
    empty; in every other case it returns no record and allocates
    nothing. *)
Theorem handleFallThroughAttr_record_iff `{ClangEnv}
    (St : Stmt) (A : AttributeList) (Range : SourceRange) (S : Sema) :
  exists r S',
    handleFallThroughAttr St A Range S = Returns r S' /\
    (r = Some (FallThroughAttr (getRange A) (getAttributeSpellingListIndex A))
     <-> isa_NullStmt St = true /\ SwitchStack (getCurFunction S) <> []) /\
    (r = None
     <-> ~ (isa_NullStmt St = true /\ SwitchStack (getCurFunction S) <> [])) /\
    Context S' =
      Context S ++ match r with Some a => [NodeAttr a] | None => [] end.
Proof.
  unfold handleFallThroughAttr.
  destruct (isa_NullStmt St) eqn:HN; simpl.
  - run_sema. case_bool_decide as HS.
    + eexists None, _; split; [reflexivity|]. simpl.
      rewrite app_nil_r. split; [|split]; [split| |reflexivity].
      * discriminate.
      * intros [_ HS']; contradiction.
      * split; [intros _ [_ HS']; contradiction | reflexivity].
    + eexists (Some _), _; split; [reflexivity|]. simpl.
      split; [|split]; [split| |reflexivity].
      * intros _; split; [reflexivity | assumption].
      * reflexivity.
      * split; [discriminate | intros HF; exfalso; apply HF; now split].
  - run_sema.
    assert (Hno : ~ (false = true /\ SwitchStack (getCurFunction S) <> []))
      by (intros [HF _]; discriminate).
    destruct (isa_SwitchCase St); simpl;
      (eexists None, _; split; [reflexivity|]); simpl; rewrite app_nil_r;
      (split; [|split]; [split| |reflexivity];
       [discriminate | intros [HF _]; discriminate
       | split; [intros _; exact Hno | reflexivity]]).
Qed.

(** On a null statement outside any switch the only effect is the
    outside-switch error at the beginning of the attribute's range. *)
Lemma handleFallThroughAttr_outside_switch `{ClangEnv} St A Range S :
  isa_NullStmt St = true ->
  SwitchStack (getCurFunction S) = [] ->
  handleFallThroughAttr St A Range S =
    Returns None
      (addDiags S
         [mkDiagnostic (getBegin (getRange A))
            err_fallthrough_attr_outside_switch []]).
Proof.
  intros HN HS. unfold handleFallThroughAttr. rewrite HN. simpl.
  unfold bind, getSema. now rewrite HS.
Qed.

(** The dispatcher sends a fallthrough attribute to that handler. *)
Lemma ProcessStmtAttribute_FallThrough `{ClangEnv} St A Range :
  getKind A = AT_FallThrough ->
  ProcessStmtAttribute St A Range = handleFallThroughAttr St A Range.
Proof. unfold ProcessStmtAttribute; now intros ->. Qed.

(** C9, as the code has it. On a statement that is not a null statement
    the handler returns no record and emits the wrong-target error at the
    beginning of the attribute's own range, with the statement's start
    location streamed in as its argument; when the statement is a case or
    default label it then emits the note at the end of the token that ends
    the attribute list's range (the [Range] argument), with a fix-it that
    inserts a semicolon there. Nothing else is emitted or allocated. *)
Theorem handleFallThroughAttr_wrong_target `{ClangEnv}
    (St : Stmt) (A : AttributeList) (Range : SourceRange) (S : Sema) :
  isa_NullStmt St = false ->
  handleFallThroughAttr St A Range S =
    Returns None
      (addDiags S
         (mkDiagnostic (getBegin (getRange A)) err_fallthrough_attr_wrong_target
            [DiagSourceRange (SourceRange_of (getLocStart St))]
          :: if isa_SwitchCase St
             then [mkDiagnostic (getLocForEndOfToken (getEnd Range))
                     note_fallthrough_insert_semi_fixit
                     [DiagFixIt
                        (CreateInsertion (getLocForEndOfToken (getEnd Range))
                                         ";")]]
             else [])).
Proof.
  intros HN. unfold handleFallThroughAttr. rewrite HN. simpl.
  run_sema. destruct (isa_SwitchCase St); simpl.
  - now rewrite <- app_assoc.
  - reflexivity.
Qed.

Lemma handleFallThroughAttr_wrong_target_witness :
  isa_NullStmt (PlainStmt DefaultStmtClass 40) = false /\
  handleFallThroughAttr (PlainStmt DefaultStmtClass 40)
      (fallthroughAt (mkSourceRange 12 23) 1) (mkSourceRange 10 25)
      (emptySema [3]) =
    Returns None
      (mkSema (mkFunctionScopeInfo [3])
         [mkDiagnostic 12 err_fallthrough_attr_wrong_target
            [DiagSourceRange (mkSourceRange 40 40)];
          mkDiagnostic 26 note_fallthrough_insert_semi_fixit
            [DiagFixIt (CreateInsertion 26 ";")]]
         []).
Proof.
  split; [reflexivity|].
  exact (handleFallThroughAttr_wrong_target (H := LitEnv)
           (PlainStmt DefaultStmtClass 40)
           (fallthroughAt (mkSourceRange 12 23) 1) (mkSourceRange 10 25)
           (emptySema [3]) eq_refl).
Defined.

(** C9 as written fails: for a fallthrough attribute spanning 12..23 on a
    case label that starts at 40, no wrong-target error is reported at the
    statement's start location 40 (the one emitted sits at 12). *)
Lemma wrong_target_not_at_statement_start :
  ~ exists S' d,
      handleFallThroughAttr (PlainStmt CaseStmtClass 40)
        (fallthroughAt (mkSourceRange 12 23) 1) (mkSourceRange 10 25)
        (emptySema [3]) = Returns None S' /\
      In d (Diags S') /\
      DiagKind d = err_fallthrough_attr_wrong_target /\
      DiagLoc d = getLocStart (PlainStmt CaseStmtClass 40).
Proof.
  intros (S' & d & Hrun & Hin & Hkind & Hloc).
  vm_compute in Hrun. injection Hrun as <-. simpl in Hin, Hloc.
  destruct Hin as [<-|[<-|[]]]; simpl in *; discriminate.
Qed.

(** ** Disable against a numeric hint *)

(** C2. With exactly a vectorize(disable) record and a vectorize_width(4)
    record on the statement, in either order, the check hands back both
    records, in their order, and appends exactly one diagnostic: the
    incompatible variant, naming the Vectorize option with the name of the
    value 0 (disable) and the VectorizeWidth option with the number 4,
    reported at the end of the record that came second. *)
Theorem vectorize_disable_with_width `{ClangEnv}
    (R1 R2 : SourceRange) (i1 i2 : bool) (S : Sema) :
  CheckForIncompatibleAttributes
      [LoopHintAttr R1 Vectorize 0 i1; LoopHintAttr R2 VectorizeWidth 4 i2] S =
    Returns
      [LoopHintAttr R1 Vectorize 0 i1; LoopHintAttr R2 VectorizeWidth 4 i2]
      (addDiags S
         [mkDiagnostic (getEnd R2) err_pragma_loop_compatibility
            [DiagBool false;
             DiagString (getOptionName Vectorize);
             DiagString (getValueName 0);
             DiagString (getOptionName VectorizeWidth);
             DiagInt 4]]) /\
  CheckForIncompatibleAttributes
      [LoopHintAttr R2 VectorizeWidth 4 i2; LoopHintAttr R1 Vectorize 0 i1] S =
    Returns
      [LoopHintAttr R2 VectorizeWidth 4 i2; LoopHintAttr R1 Vectorize 0 i1]
      (addDiags S
         [mkDiagnostic (getEnd R1) err_pragma_loop_compatibility
            [DiagBool false;
             DiagString (getOptionName Vectorize);
             DiagString (getValueName 0);
             DiagString (getOptionName VectorizeWidth);
             DiagInt 4]]).
Proof. split; reflexivity. Qed.

(** With clang's name tables the diagnostic reads vectorize / disable
    against vectorize_width / 4. *)
Example disable_with_width_clang_names :
  CheckForIncompatibleAttributes (H := LitEnv)
      [LoopHintAttr (mkSourceRange 1 5) VectorizeWidth 4 true;
       LoopHintAttr (mkSourceRange 6 9) Vectorize 0 true] (emptySema []) =
    Returns
      [LoopHintAttr (mkSourceRange 1 5) VectorizeWidth 4 true;
       LoopHintAttr (mkSourceRange 6 9) Vectorize 0 true]
      (mkSema (mkFunctionScopeInfo [])
         [mkDiagnostic 9 err_pragma_loop_compatibility
            [DiagBool false; DiagString "vectorize"; DiagString "disable";
             DiagString "vectorize_width"; DiagInt 4]]
         []).
Proof. reflexivity. Qed.

(** Both records reach the attributed statement. *)
Example disable_with_width_bound :
  exists S',
    ProcessStmtAttributes (PlainStmt ForStmtClass 60)
        [loopHintAt (mkSourceRange 20 40) "vectorize" (Some "disable"%string)
           None;
         loopHintAt (mkSourceRange 42 58) "vectorize_width" None
           (Some (IntegerLiteral 4))]
        (mkSourceRange 18 59) (emptySema []) =
      Returns
        (AttributedStmt 18
           [LoopHintAttr (mkSourceRange 20 40) Vectorize 0 true;
            LoopHintAttr (mkSourceRange 42 58) VectorizeWidth 4 true]
           (PlainStmt ForStmtClass 60)) S' /\
    Diags S' =
      [mkDiagnostic 58 err_pragma_loop_compatibility
         [DiagBool false; DiagString "vectorize"; DiagString "disable";
          DiagString "vectorize_width"; DiagInt 4]].
Proof. eexists. split; reflexivity. Qed.

(** ** Option resolution *)

Lemma OptionSwitch_default Name :
  ~ In Name OptionSpellings -> OptionSwitch Name = Vectorize.
Proof.
  unfold OptionSpellings, OptionSwitch; simpl; intros HN.
  repeat match goal with
         | |- context [String.eqb Name ?s] =>
             destruct (String.eqb_spec Name s) as [->|_]; [tauto|]
         end.
  reflexivity.
Qed.

(** The handler reads the option's spelling only through the switch. *)
Lemma handleLoopHintAttr_option_name `{ClangEnv} St k n R d i L rest Range
    Name1 Name2 S :
  OptionSwitch Name1 = OptionSwitch Name2 ->
  handleLoopHintAttr St
      (mkAttributeList k n R d i
         (ArgIdent (Some (mkIdentifierLoc L (Some Name1))) :: rest)) Range S =
  handleLoopHintAttr St
      (mkAttributeList k n R d i
         (ArgIdent (Some (mkIdentifierLoc L (Some Name2))) :: rest)) Range S.
Proof.
  intros HO. unfold handleLoopHintAttr, getArgAsIdent, getArgAsExpr, getArg.
  destruct (isLoopStmtClass (getStmtClass St)); simpl; [|reflexivity].
  run_sema. now rewrite HO.
Qed.

(** ** The compatibility check, one record at a time *)

Lemma CategoryOf_lt Option : CategoryOf Option < 3.
Proof. destruct Option; simpl; lia. Qed.

Lemma Options_lookup (Options : list CategoryState) Option :
  length Options = 3 -> exists St, Options !! CategoryOf Option = Some St.
Proof.
  intros HL. apply lookup_lt_is_Some_2. rewrite HL. apply CategoryOf_lt.
Qed.

(** What one trip through the loop body does for a loop hint. *)
Lemma checkAttr_LoopHint `{ClangEnv} Options R Option ValueInt imp St0 S :
  Options !! CategoryOf Option = Some St0 ->
  checkAttr (LoopHintAttr R Option ValueInt imp) Options S =
    Returns (<[CategoryOf Option := trackerAfter Option ValueInt St0]> Options)
      (addDiags S
         (duplicateDiags (getEnd R) Option ValueInt St0 ++
          if disabledWithValue (trackerAfter Option ValueInt St0)
          then [incompatibleDiag (getEnd R) (trackerAfter Option ValueInt St0)]
          else [])).
Proof.
  intros HL. unfold checkAttr. rewrite HL.
  unfold trackerAfter, duplicateDiags.
  destruct S as [cf ds ctx].
  destruct (isEnableOption Option).
  - destruct (EnabledIsSet St0);
      destruct (disabledWithValue (setEnabled St0 ValueInt)) eqn:HD;
      unfold bind, ret, Diag, addDiags; simpl; rewrite HD; simpl;
      rewrite <- ?app_assoc, ?app_nil_r; reflexivity.
  - destruct (ValueIsSet St0);
      destruct (disabledWithValue (setValue St0 ValueInt)) eqn:HD;
      unfold bind, ret, Diag, addDiags; simpl; rewrite HD; simpl;
      rewrite <- ?app_assoc, ?app_nil_r; reflexivity.
Qed.

Lemma checkAttr_FallThrough `{ClangEnv} Options R idx S :
  checkAttr (FallThroughAttr R idx) Options S = Returns Options S.
Proof. reflexivity. Qed.

(** The loop never leaves the three-element array and never aborts; what
    it appends to the sink is fixed by the records and the trackers. *)
Lemma checkAttr_runs `{ClangEnv} I_ Options :
  length Options = 3 ->
  exists ds Options',
    length Options' = 3 /\
    forall S, checkAttr I_ Options S = Returns Options' (addDiags S ds).
Proof.
  intros HL. destruct I_ as [R idx|R Option ValueInt imp].
  - exists [], Options. split; [assumption|].
    intros S. now rewrite addDiags_nil.
  - destruct (Options_lookup Options Option HL) as [St0 HS].
    exists (duplicateDiags (getEnd R) Option ValueInt St0 ++
            if disabledWithValue (trackerAfter Option ValueInt St0)
            then [incompatibleDiag (getEnd R)
                    (trackerAfter Option ValueInt St0)]
            else []),
           (<[CategoryOf Option := trackerAfter Option ValueInt St0]> Options).
    split; [now rewrite length_insert|].
    intros S. now apply checkAttr_LoopHint.
Qed.

Lemma checkLoop_runs `{ClangEnv} Attrs : forall Options,
  length Options = 3 ->
  exists ds Options',
    length Options' = 3 /\
    forall S, checkLoop Attrs Options S = Returns Options' (addDiags S ds).
Proof.
  induction Attrs as [|I_ rest IH]; intros Options HL.
  - exists [], Options. split; [assumption|].
    intros S. simpl. unfold ret. now rewrite addDiags_nil.
  - destruct (checkAttr_runs I_ Options HL) as (ds1 & O1 & HL1 & H1).
    destruct (IH O1 HL1) as (ds2 & O2 & HL2 & H2).
    exists (ds1 ++ ds2), O2. split; [assumption|].
    intros S. simpl. rewrite (bind_Returns _ _ _ _ _ (H1 S)).
    rewrite H2. now rewrite addDiags_app.
Qed.

Lemma CheckForIncompatibleAttributes_runs `{ClangEnv} Attrs :
  exists ds,
    forall S, CheckForIncompatibleAttributes Attrs S =
              Returns Attrs (addDiags S ds).
Proof.
  destruct (checkLoop_runs Attrs Options0 eq_refl) as (ds & O' & _ & Hrun).
  exists ds. intros S. unfold CheckForIncompatibleAttributes.
  now rewrite (bind_Returns _ _ _ _ _ (Hrun S)).
Qed.

(** C6. The disabled-with-value test sits at the end of the loop body, so
    it is taken afresh for every loop-hint record on the tracker of that
    record's category: after the duplicate diagnostics (if any) the record
    emits the incompatible diagnostic exactly once when the updated tracker
    has EnabledIsSet, a false Enabled and ValueIsSet, and not at all
    otherwise; a record that is no loop hint emits nothing. Hence, once a
    tracker is disabled with a value, a further disable or a further
    numeric hint of that category fires the diagnostic again: the runs
    disable, width, disable and disable, width, width each report it
    twice. *)
Theorem incompatible_reevaluated_per_record `{ClangEnv} :
  (forall Options R Option ValueInt imp St0 S,
      Options !! CategoryOf Option = Some St0 ->
      let St1 := trackerAfter Option ValueInt St0 in
      checkAttr (LoopHintAttr R Option ValueInt imp) Options S =
        Returns (<[CategoryOf Option := St1]> Options)
          (addDiags S
             (duplicateDiags (getEnd R) Option ValueInt St0 ++
              if EnabledIsSet St1 && negb (Enabled St1) && ValueIsSet St1
              then [incompatibleDiag (getEnd R) St1] else [])) /\
      forallb isDuplicateDiag
        (duplicateDiags (getEnd R) Option ValueInt St0) = true /\
      isIncompatibleDiag (incompatibleDiag (getEnd R) St1) = true) /\
  (forall Options R idx S,
      checkAttr (FallThroughAttr R idx) Options S = Returns Options S) /\
  (forall Options R Option ValueInt imp St0 S,
      Options !! CategoryOf Option = Some St0 ->
      disabledWithValue St0 = true ->
      (isEnableOption Option = true -> ValueInt = 0%Z) ->
      let St1 := trackerAfter Option ValueInt St0 in
      checkAttr (LoopHintAttr R Option ValueInt imp) Options S =
        Returns (<[CategoryOf Option := St1]> Options)
          (addDiags S
             (duplicateDiags (getEnd R) Option ValueInt St0 ++
              [incompatibleDiag (getEnd R) St1]))) /\
  (forall R1 R2 R3 i1 i2 i3 n S,
      let ds :=
        [incompatibleDiag (getEnd R2)
           (mkCategoryState Vectorize VectorizeWidth true true false n);
         duplicateEnableDiag (getEnd R3) Vectorize false 0;
         incompatibleDiag (getEnd R3)
           (mkCategoryState Vectorize VectorizeWidth true true false n)] in
      CheckForIncompatibleAttributes
          [LoopHintAttr R1 Vectorize 0 i1;
           LoopHintAttr R2 VectorizeWidth n i2;
           LoopHintAttr R3 Vectorize 0 i3] S =
        Returns
          [LoopHintAttr R1 Vectorize 0 i1;
           LoopHintAttr R2 VectorizeWidth n i2;
           LoopHintAttr R3 Vectorize 0 i3]
          (addDiags S ds) /\
      length (List.filter isIncompatibleDiag ds) = 2) /\
  (forall R1 R2 R3 i1 i2 i3 n m S,
      let ds :=
        [incompatibleDiag (getEnd R2)
           (mkCategoryState Vectorize VectorizeWidth true true false n);
         duplicateValueDiag (getEnd R3) VectorizeWidth n m;
         incompatibleDiag (getEnd R3)
           (mkCategoryState Vectorize VectorizeWidth true true false m)] in
      CheckForIncompatibleAttributes
          [LoopHintAttr R1 Vectorize 0 i1;
           LoopHintAttr R2 VectorizeWidth n i2;
           LoopHintAttr R3 VectorizeWidth m i3] S =
        Returns
          [LoopHintAttr R1 Vectorize 0 i1;
           LoopHintAttr R2 VectorizeWidth n i2;
           LoopHintAttr R3 VectorizeWidth m i3]
          (addDiags S ds) /\
      length (List.filter isIncompatibleDiag ds) = 2).
Proof.
  split; [|split; [|split; [|split]]].
  - intros Options R Option ValueInt imp St0 S HL St1. subst St1.
    split; [|split].
    + now apply checkAttr_LoopHint.
    + unfold duplicateDiags.
      destruct (isEnableOption Option);
        [destruct (EnabledIsSet St0)|destruct (ValueIsSet St0)]; reflexivity.
    + reflexivity.
  - reflexivity.
  - intros Options R Option ValueInt imp St0 S HL HD HV St1. subst St1.
    rewrite (checkAttr_LoopHint _ _ _ _ _ _ _ HL).
    replace (disabledWithValue (trackerAfter Option ValueInt St0)) with true;
      [reflexivity|].
    unfold disabledWithValue in HD.
    apply andb_prop in HD as [HD HV']. apply andb_prop in HD as [HE HN].
    unfold trackerAfter, disabledWithValue.
    destruct (isEnableOption Option); simpl.
    + rewrite (HV eq_refl), HV'. reflexivity.
    + now rewrite HE, HN.
  - intros. subst ds. split; [|reflexivity].
    unfold CheckForIncompatibleAttributes, addDiags; simpl.
    unfold bind, ret, Diag; simpl. now rewrite <- !app_assoc.
  - intros. subst ds. split; [|reflexivity].
    unfold CheckForIncompatibleAttributes, addDiags; simpl.
    unfold bind, ret, Diag; simpl. now rewrite <- !app_assoc.
Qed.

(** An interleave tracker that is already disabled with a count, and a
    second interleave_count arriving. *)
Lemma incompatible_reevaluated_per_record_witness :
  checkAttr (H := LitEnv)
      (LoopHintAttr (mkSourceRange 70 85) InterleaveCount 2 true)
      [mkCategoryState Vectorize VectorizeWidth false false false 0;
       mkCategoryState Interleave InterleaveCount true true false 4;
       mkCategoryState Unroll UnrollCount false false false 0]
      (emptySema []) =
    Returns
      [mkCategoryState Vectorize VectorizeWidth false false false 0;
       mkCategoryState Interleave InterleaveCount true true false 2;
       mkCategoryState Unroll UnrollCount false false false 0]
      (mkSema (mkFunctionScopeInfo [])
         [mkDiagnostic 85 err_pragma_loop_compatibility
            [DiagBool true; DiagString "interleave_count"; DiagInt 4;
             DiagString "interleave_count"; DiagInt 2];
          mkDiagnostic 85 err_pragma_loop_compatibility
            [DiagBool false; DiagString "interleave"; DiagString "disable";
             DiagString "interleave_count"; DiagInt 2]]
         []).
Proof.
  exact (proj1 (proj2 (proj2 (incompatible_reevaluated_per_record
                                (H := LitEnv))))
           [mkCategoryState Vectorize VectorizeWidth false false false 0;
            mkCategoryState Interleave InterleaveCount true true false 4;
            mkCategoryState Unroll UnrollCount false false false 0]
           (mkSourceRange 70 85) InterleaveCount 2%Z true
           (mkCategoryState Interleave InterleaveCount true true false 4)
           (emptySema []) eq_refl eq_refl
           (fun HF : false = true =>
              False_ind _ (Bool.diff_false_true HF))).
Defined.

(** A hint of another category does not report the vectorize conflict
    again: the test looks at the tracker the record went into. *)
Example incompatible_other_category :
  CheckForIncompatibleAttributes (H := LitEnv)
      [LoopHintAttr (mkSourceRange 1 5) Vectorize 0 true;
       LoopHintAttr (mkSourceRange 6 9) VectorizeWidth 4 true;
       LoopHintAttr (mkSourceRange 10 14) Unroll 1 true] (emptySema []) =
    Returns
      [LoopHintAttr (mkSourceRange 1 5) Vectorize 0 true;
       LoopHintAttr (mkSourceRange 6 9) VectorizeWidth 4 true;
       LoopHintAttr (mkSourceRange 10 14) Unroll 1 true]
      (mkSema (mkFunctionScopeInfo [])
         [mkDiagnostic 9 err_pragma_loop_compatibility
            [DiagBool false; DiagString "vectorize"; DiagString "disable";
             DiagString "vectorize_width"; DiagInt 4]]
         []).
Proof. reflexivity. Qed.

(** C8. The check gives back the record vector it was given, element for
    element, leaves the function scope and the allocator alone, and appends
    to the sink a list of diagnostics that is fixed by the records: the same
    list whatever state the analyser is in, so a second run over the
    records appends the same diagnostics once more. *)
Theorem CheckForIncompatibleAttributes_pure `{ClangEnv} (Attrs : list Attr) :
  exists ds,
    forall S,
      CheckForIncompatibleAttributes Attrs S =
        Returns Attrs
          (mkSema (getCurFunction S) (Diags S ++ ds) (Context S)) /\
      (Attrs' <- CheckForIncompatibleAttributes Attrs ;;
       CheckForIncompatibleAttributes Attrs') S =
        Returns Attrs
          (mkSema (getCurFunction S) ((Diags S ++ ds) ++ ds) (Context S)).
Proof.
  destruct (CheckForIncompatibleAttributes_runs Attrs) as [ds Hds].
  exists ds. intros S. split.
  - apply Hds.
  - rewrite (bind_Returns _ _ _ _ _ (Hds S)). now rewrite Hds.
Qed.

(** ** The loop-hint parser *)

Lemma isNumericOption_complement Option :
  isEnableOption Option = false -> isNumericOption Option = true.
Proof. now destruct Option. Qed.

Lemma handleLoopHintAttr_nonloop `{ClangEnv} St A Range S :
  isLoopStmtClass (getStmtClass St) = false ->
  handleLoopHintAttr St A Range S =
    Returns None
      (addDiags S
         [mkDiagnostic (getLocStart St) err_pragma_loop_precedes_nonloop []]).
Proof. intros HL. unfold handleLoopHintAttr. now rewrite HL. Qed.

(** On a loop, with the arguments in shape, the handler never aborts: it
    either allocates the record or reports at the value's location. *)
Lemma handleLoopHintAttr_run `{ClangEnv} St A Range S L Name VL E rest :
  isLoopStmtClass (getStmtClass St) = true ->
  Args A = ArgIdent (Some (mkIdentifierLoc L (Some Name)))
           :: ArgIdent (Some VL) :: ArgExpr E :: rest ->
  handleLoopHintAttr St A Range S =
    match loopHintValue (OptionSwitch Name) (Ident VL) E with
    | inr v =>
        Returns (Some (LoopHintAttr (getRange A) (OptionSwitch Name) v true))
          (addNodes S
             [NodeAttr (LoopHintAttr (getRange A) (OptionSwitch Name) v true)])
    | inl id => Returns None (addDiags S [mkDiagnostic (Loc VL) id []])
    end.
Proof.
  intros HL HA.
  unfold handleLoopHintAttr, getArgAsIdent, getArgAsExpr, getArg, loopHintValue.
  rewrite HL, HA. simpl.
  unfold bind, ret, abort, deref, assert, CreateImplicit, allocate, Diag; simpl.
  destruct (isEnableOption (OptionSwitch Name)) eqn:HE.
  - destruct (Ident VL) as [ValueName|]; [|destruct NDEBUG; reflexivity].
    destruct (String.eqb ValueName "disable"); [destruct NDEBUG; reflexivity|].
    destruct (String.eqb ValueName "enable"); destruct NDEBUG; reflexivity.
  - rewrite (isNumericOption_complement _ HE).
    destruct E as [E|]; [|destruct NDEBUG; reflexivity].
    destruct (isIntegerConstantExpr E) as [ValueAPS|]; [|destruct NDEBUG; reflexivity].
    destruct (int_of_int64 (getSExtValue ValueAPS) <? 1)%Z; destruct NDEBUG; reflexivity.
Qed.

(** Keyword resolution for the enable/disable options: enable gives 1,
    disable gives 0, and a null identifier or any other spelling is the
    invalid-keyword error. *)
Lemma loopHintValue_keyword `{ClangEnv} Option ValueInfo ValueExpr :
  isEnableOption Option = true ->
  (ValueInfo = Some "enable"%string ->
   loopHintValue Option ValueInfo ValueExpr = inr 1%Z) /\
  (ValueInfo = Some "disable"%string ->
   loopHintValue Option ValueInfo ValueExpr = inr 0%Z) /\
  (ValueInfo <> Some "enable"%string ->
   ValueInfo <> Some "disable"%string ->
   loopHintValue Option ValueInfo ValueExpr =
     inl err_pragma_loop_invalid_keyword).
Proof.
  intros HE. unfold loopHintValue. rewrite HE.
  split; [|split].
  - now intros ->.
  - now intros ->.
  - intros HNe HNd. destruct ValueInfo as [ValueName|]; [|reflexivity].
    destruct (String.eqb_spec ValueName "disable") as [->|_]; [congruence|].
    destruct (String.eqb_spec ValueName "enable") as [->|_]; [congruence|].
    reflexivity.
Qed.

Lemma int_of_int64_fits v : fits_int v -> int_of_int64 v = v.
Proof.
  unfold fits_int, int_of_int64. intros Hv.
  rewrite Z.mod_small; lia.
Qed.

(** Value resolution for the numeric options, for constants that fit the
    [int] they are stored in: accepted exactly from 1 upwards. *)
Lemma loopHintValue_numeric_fits `{ClangEnv} Option ValueInfo E ValueAPS :
  isEnableOption Option = false ->
  isIntegerConstantExpr E = Some ValueAPS ->
  fits_int (getSExtValue ValueAPS) ->
  loopHintValue Option ValueInfo (Some E) =
    if (1 <=? getSExtValue ValueAPS)%Z then inr (getSExtValue ValueAPS)
    else inl err_pragma_loop_invalid_value.
Proof.
  intros HE HC Hfit. unfold loopHintValue. rewrite HE, HC.
  rewrite (int_of_int64_fits _ Hfit).
  destruct (Z.ltb_spec (getSExtValue ValueAPS) 1);
    destruct (Z.leb_spec 1 (getSExtValue ValueAPS)); try lia; reflexivity.
Qed.

Lemma loopHintValue_numeric_missing `{ClangEnv} Option ValueInfo ValueExpr :
  isEnableOption Option = false ->
  ValueExpr = None \/
  (exists E, ValueExpr = Some E /\ isIntegerConstantExpr E = None) ->
  loopHintValue Option ValueInfo ValueExpr = inl err_pragma_loop_invalid_value.
Proof.
  intros HE [->|(E & -> & HC)]; unfold loopHintValue; rewrite HE;
    [|rewrite HC]; reflexivity.
Qed.

(** C4, at the inputs where the code leaves the claim. The value of a
    numeric hint is narrowed to a 32-bit int before it is compared with 1:
    on a for loop, unroll_count(4294967296) is rejected with the
    invalid-value error although the constant is at least 1,
    unroll_count(4294967300) is accepted and recorded as 4, and a constant
    expression of value -4294967295 is accepted and recorded as 1. *)
Theorem loop_hint_value_narrowed_to_int :
  handleLoopHintAttr (PlainStmt ForStmtClass 60)
      (loopHintAt (mkSourceRange 20 47) "unroll_count" None
         (Some (IntegerLiteral 4294967296)))
      (mkSourceRange 20 47) (emptySema []) =
    Returns None
      (mkSema (mkFunctionScopeInfo [])
         [mkDiagnostic 21 err_pragma_loop_invalid_value []] []) /\
  handleLoopHintAttr (PlainStmt ForStmtClass 60)
      (loopHintAt (mkSourceRange 20 47) "unroll_count" None
         (Some (IntegerLiteral 4294967300)))
      (mkSourceRange 20 47) (emptySema []) =
    Returns (Some (LoopHintAttr (mkSourceRange 20 47) UnrollCount 4 true))
      (mkSema (mkFunctionScopeInfo []) []
         [NodeAttr (LoopHintAttr (mkSourceRange 20 47) UnrollCount 4 true)]) /\
  handleLoopHintAttr (PlainStmt ForStmtClass 60)
      (loopHintAt (mkSourceRange 20 47) "unroll_count" None
         (Some (IntegerLiteral (-4294967295))))
      (mkSourceRange 20 47) (emptySema []) =
    Returns (Some (LoopHintAttr (mkSourceRange 20 47) UnrollCount 1 true))
      (mkSema (mkFunctionScopeInfo []) []
         [NodeAttr (LoopHintAttr (mkSourceRange 20 47) UnrollCount 1 true)]).
Proof. repeat split. Qed.

(** The same hints with small constants, as the specification gives them:
    unroll_count(0) is an error, unroll_count(4) records 4, and
    vectorize(enable) records 1. *)
Example loop_hint_small_values :
  handleLoopHintAttr (PlainStmt ForStmtClass 60)
      (loopHintAt (mkSourceRange 20 47) "unroll_count" None
         (Some (IntegerLiteral 0)))
      (mkSourceRange 20 47) (emptySema []) =
    Returns None
      (mkSema (mkFunctionScopeInfo [])
         [mkDiagnostic 21 err_pragma_loop_invalid_value []] []) /\
  handleLoopHintAttr (PlainStmt ForStmtClass 60)
      (loopHintAt (mkSourceRange 20 47) "unroll_count" None
         (Some (IntegerLiteral 4)))
      (mkSourceRange 20 47) (emptySema []) =
    Returns (Some (LoopHintAttr (mkSourceRange 20 47) UnrollCount 4 true))
      (mkSema (mkFunctionScopeInfo []) []
         [NodeAttr (LoopHintAttr (mkSourceRange 20 47) UnrollCount 4 true)]) /\
  handleLoopHintAttr (PlainStmt ForStmtClass 60)
      (loopHintAt (mkSourceRange 20 47) "vectorize" (Some "enable"%string)
         None)
      (mkSourceRange 20 47) (emptySema []) =
    Returns (Some (LoopHintAttr (mkSourceRange 20 47) Vectorize 1 true))
      (mkSema (mkFunctionScopeInfo []) []
         [NodeAttr (LoopHintAttr (mkSourceRange 20 47) Vectorize 1 true)]).
Proof. repeat split. Qed.

(** ** Argument slots of the loop-hint handler *)

Ltac unfold_loop_hint :=
  unfold handleLoopHintAttr, getArgAsIdent, getArgAsExpr, getArg;
  unfold bind, ret, abort, deref, assert, CreateImplicit, allocate, Diag.

(** On a loop the handler returns exactly when the arguments are in
    shape. *)
Lemma handleLoopHintAttr_returns_iff `{ClangEnv} St A Range S :
  isLoopStmtClass (getStmtClass St) = true ->
  (exists r S', handleLoopHintAttr St A Range S = Returns r S')
  <-> loopHintArgs A.
Proof.
  intros HL. split.
  - intros (r & S' & Hrun). revert Hrun. unfold loopHintArgs.
    unfold_loop_hint. rewrite HL. simpl.
    destruct (Args A) as [|[e0|[[L0 [Name|]]|]] [|[e1|[VL|]] [|[e2|il2] rest]]];
      simpl; try discriminate; try (destruct NDEBUG; discriminate).
    intros _. now exists L0, Name, VL, e2, rest.
  - intros (L & Name & VL & E & rest & HA).
    rewrite (handleLoopHintAttr_run St A Range S L Name VL E rest HL HA).
    destruct (loopHintValue (OptionSwitch Name) (Ident VL) E); eauto.
Qed.

Lemma loopHintArgs_identSlotsPresent `{ClangEnv} A :
  loopHintArgs A -> identSlotsPresent A.
Proof.
  intros (L & Name & VL & E & rest & HA). unfold identSlotsPresent.
  rewrite HA. eauto.
Qed.

(** ** Binding the records to the statement *)

Lemma addNodes_addDiags_app S ds1 ns1 ds2 ns2 :
  addNodes (addDiags (addNodes (addDiags S ds1) ns1) ds2) ns2 =
  addNodes (addDiags S (ds1 ++ ds2)) (ns1 ++ ns2).
Proof. unfold addNodes, addDiags; simpl. now rewrite !app_assoc. Qed.

(** One parsed attribute: the record it yields and the diagnostics it
    raises depend on the analyser's state through the function scope
    only; the sink and the allocator only grow. *)
Lemma ProcessStmtAttribute_run `{ClangEnv} St A Range cf :
  processable St A ->
  exists r ds,
    forall S, getCurFunction S = cf ->
      ProcessStmtAttribute St A Range S =
        Returns r (addNodes (addDiags S ds) (nodesOf r)).
Proof.
  intros Hok. unfold ProcessStmtAttribute.
  destruct (getKind A) eqn:HK.
  - eexists None, _. intros S _. rewrite addNodes_nil. reflexivity.
  - unfold handleFallThroughAttr.
    destruct (isa_NullStmt St); simpl.
    + destruct (bool_decide (SwitchStack cf = [])) eqn:HS.
      * eexists None, _. intros S <-. unfold bind, getSema. rewrite HS.
        rewrite addNodes_nil. reflexivity.
      * eexists (Some _), []. intros S <-. unfold bind, getSema. rewrite HS.
        rewrite addDiags_nil. reflexivity.
    + destruct (isa_SwitchCase St).
      * eexists None, [_; _]. intros S _. rewrite addNodes_nil.
        unfold bind, Diag, ret, addDiags; simpl. now rewrite <- app_assoc.
      * eexists None, [_]. intros S _. rewrite addNodes_nil. reflexivity.
  - destruct (isLoopStmtClass (getStmtClass St)) eqn:HL.
    + destruct (Hok HK HL) as (L & Name & VL & E & rest & HA).
      destruct (loopHintValue (OptionSwitch Name) (Ident VL) E) as [id|v] eqn:HV.
      * eexists None, _. intros S _.
        rewrite (handleLoopHintAttr_run St A Range S L Name VL E rest HL HA), HV.
        now rewrite addNodes_nil.
      * eexists (Some _), []. intros S _.
        rewrite (handleLoopHintAttr_run St A Range S L Name VL E rest HL HA), HV.
        now rewrite addDiags_nil.
    + eexists None, _. intros S _.
      rewrite (handleLoopHintAttr_nonloop St A Range S HL).
      now rewrite addNodes_nil.
  - eexists None, _. intros S _. rewrite addNodes_nil. reflexivity.
Qed.

(** The first loop collects, in list order, the record of every attribute
    that has one. *)
Lemma collectAttrs_run `{ClangEnv} St Range cf l : forall acc,
  Forall (processable St) l ->
  exists rs ds,
    forall S, getCurFunction S = cf ->
      collectAttrs St l Range acc S =
        Returns (acc ++ rs) (addNodes (addDiags S ds) (map NodeAttr rs)) /\
      omap (recordOf St Range S) l = rs.
Proof.
  induction l as [|A l IH]; intros acc Hok.
  - exists [], []. intros S _. simpl. unfold ret.
    now rewrite app_nil_r, addDiags_nil, addNodes_nil.
  - apply Forall_cons in Hok as [HA Hl].
    destruct (ProcessStmtAttribute_run St A Range cf HA) as (r & ds1 & H1).
    destruct (IH (match r with Some a => acc ++ [a] | None => acc end) Hl)
      as (rs2 & ds2 & H2).
    exists (match r with Some a => a :: rs2 | None => rs2 end), (ds1 ++ ds2).
    intros S HS.
    assert (HS1 : getCurFunction (addNodes (addDiags S ds1) (nodesOf r)) = cf)
      by exact HS.
    assert (Hrec : recordOf St Range S A = r)
      by (unfold recordOf; now rewrite (H1 S HS)).
    split.
    + simpl. rewrite (bind_Returns _ _ _ _ _ (H1 S HS)).
      rewrite (proj1 (H2 _ HS1)), addNodes_addDiags_app.
      destruct r as [a|]; simpl; [now rewrite <- app_assoc|reflexivity].
    + change (omap (recordOf St Range S) (A :: l))
        with (match recordOf St Range S A with
              | Some a => a :: omap (recordOf St Range S) l
              | None => omap (recordOf St Range S) l
              end).
      now rewrite Hrec, (proj2 (H2 S HS)).
Qed.

(** C7. Provided every loop hint that sits on a loop has its arguments in
    shape, the binder returns. With no record (in particular when every
    parsed attribute was turned down) it returns the statement it was given
    and the allocator is left as it was; otherwise it returns one
    attributed statement placed at the beginning of [Range], holding the
    records of the attributes in list order and the original statement,
    and that node is the one statement node allocated, after the
    records. *)
Theorem ProcessStmtAttributes_binds `{ClangEnv}
    (S0 : Stmt) (AttrList : list AttributeList) (Range : SourceRange)
    (Sm : Sema) :
  Forall (processable S0) AttrList ->
  let Attrs := omap (recordOf S0 Range Sm) AttrList in
  exists S',
    ProcessStmtAttributes S0 AttrList Range Sm =
      Returns
        (match Attrs with
         | [] => S0
         | _ :: _ => AttributedStmt (getBegin Range) Attrs S0
         end) S' /\
    getCurFunction S' = getCurFunction Sm /\
    Context S' =
      Context Sm ++ map NodeAttr Attrs ++
      match Attrs with
      | [] => []
      | _ :: _ => [NodeStmt (AttributedStmt (getBegin Range) Attrs S0)]
      end /\
    (Forall (fun A => recordOf S0 Range Sm A = None) AttrList ->
     ProcessStmtAttributes S0 AttrList Range Sm = Returns S0 S' /\
     Context S' = Context Sm).
Proof.
  intros Hok Attrs.
  destruct (collectAttrs_run S0 Range (getCurFunction Sm) AttrList [] Hok)
    as (rs & ds & Hrun).
  destruct (Hrun Sm eq_refl) as [Hcol Hrs]. simpl in Hcol.
  fold Attrs in Hrs. subst rs.
  destruct (CheckForIncompatibleAttributes_runs Attrs) as [dsc Hchk].
  assert (Hnone : Forall (fun A => recordOf S0 Range Sm A = None) AttrList ->
                  Attrs = []).
  { intros HF. subst Attrs. clear -HF.
    induction HF as [|A l HA _ IH]; [reflexivity|].
    simpl. now rewrite HA. }
  unfold ProcessStmtAttributes.
  rewrite (bind_Returns _ _ _ _ _ Hcol).
  rewrite (bind_Returns _ _ _ _ _ (Hchk _)).
  destruct Attrs as [|a Attrs'] eqn:HAttrs.
  - eexists. split; [reflexivity|]. simpl. rewrite !app_nil_r.
    repeat split; reflexivity.
  - eexists. split; [reflexivity|]. simpl.
    split; [reflexivity|]. split.
    + now rewrite <- app_assoc.
    + intros HF. specialize (Hnone HF). discriminate.
Qed.

(** A for loop under vectorize(enable) and an unknown attribute is wrapped
    with the one record; a null statement under a fallthrough attribute
    outside any switch comes back as it is. *)
Lemma ProcessStmtAttributes_binds_witness :
  (exists S',
     ProcessStmtAttributes (PlainStmt ForStmtClass 60)
         [loopHintAt (mkSourceRange 20 40) "vectorize" (Some "enable"%string)
            None;
          mkAttributeList (H := LitEnv) UnknownAttribute "frobnicate"%string
            (mkSourceRange 42 52) false 0 []]
         (mkSourceRange 18 54) (emptySema []) =
       Returns
         (AttributedStmt 18
            [LoopHintAttr (mkSourceRange 20 40) Vectorize 1 true]
            (PlainStmt ForStmtClass 60)) S') /\
  (exists S',
     ProcessStmtAttributes (PlainStmt NullStmtClass 30)
         [fallthroughAt (mkSourceRange 12 23) 0]
         (mkSourceRange 10 25) (emptySema []) =
       Returns (PlainStmt NullStmtClass 30) S' /\
     Context S' = []).
Proof.
  split.
  - assert (Hok : Forall (processable (PlainStmt ForStmtClass 60))
              [loopHintAt (mkSourceRange 20 40) "vectorize"
                 (Some "enable"%string) None;
               mkAttributeList (H := LitEnv) UnknownAttribute
                 "frobnicate"%string (mkSourceRange 42 52) false 0 []]).
    { constructor; [|constructor; [|constructor]].
      - intros _ _. unfold loopHintArgs, loopHintAt. simpl. eauto 10.
      - intros HK. discriminate HK. }
    destruct (ProcessStmtAttributes_binds (H := LitEnv) _ _
                (mkSourceRange 18 54) (emptySema []) Hok)
      as (S' & Hrun & _).
    exists S'. exact Hrun.
  - assert (Hok : Forall (processable (PlainStmt NullStmtClass 30))
              [fallthroughAt (mkSourceRange 12 23) 0]).
    { constructor; [|constructor]. intros HK. discriminate HK. }
    destruct (ProcessStmtAttributes_binds (H := LitEnv) _ _
                (mkSourceRange 10 25) (emptySema []) Hok)
      as (S' & Hrun & _ & Hctx & _).
    exists S'. split; [exact Hrun | exact Hctx].
Defined.

(** * Further properties of the handlers *)

(** ** Spellings and values *)

(** X1. Apart from the default, an option is selected by its exact
    spelling only: the switch yields VectorizeWidth, Interleave,
    InterleaveCount, Unroll or UnrollCount exactly for the spelling of that
    option, and Vectorize for every other string. In particular a numeric
    option is never reached through a misspelling. *)
Theorem OptionSwitch_inverse (Name : string) :
  (OptionSwitch Name = VectorizeWidth <-> Name = "vectorize_width"%string) /\
  (OptionSwitch Name = Interleave <-> Name = "interleave"%string) /\
  (OptionSwitch Name = InterleaveCount <-> Name = "interleave_count"%string) /\
  (OptionSwitch Name = Unroll <-> Name = "unroll"%string) /\
  (OptionSwitch Name = UnrollCount <-> Name = "unroll_count"%string) /\
  (OptionSwitch Name = Vectorize <->
   ~ In Name ["vectorize_width"; "interleave"; "interleave_count";
              "unroll"; "unroll_count"]%string) /\
  (isNumericOption (OptionSwitch Name) = true <->
   In Name ["vectorize_width"; "interleave_count"; "unroll_count"]%string).
Proof.
  unfold OptionSwitch.
  destruct (String.eqb_spec Name "vectorize") as [->|H1];
    [simpl; repeat split; try discriminate; intuition discriminate|].
  destruct (String.eqb_spec Name "vectorize_width") as [->|H2];
    [simpl; repeat split; try discriminate; intuition discriminate|].
  destruct (String.eqb_spec Name "interleave") as [->|H3];
    [simpl; repeat split; try discriminate; intuition discriminate|].
  destruct (String.eqb_spec Name "interleave_count") as [->|H4];
    [simpl; repeat split; try discriminate; intuition discriminate|].
  destruct (String.eqb_spec Name "unroll") as [->|H5];
    [simpl; repeat split; try discriminate; intuition discriminate|].
  destruct (String.eqb_spec Name "unroll_count") as [->|H6];
    [simpl; repeat split; try discriminate; intuition discriminate|].
  simpl. repeat split; try discriminate; try congruence;
    intuition congruence.
Qed.

Lemma int_of_int64_range v : fits_int (int_of_int64 v).
Proof.
  unfold fits_int, int_of_int64.
  pose proof (Z.mod_pos_bound (v + 2 ^ 31) (2 ^ 32) eq_refl). lia.
Qed.

Lemma loopHintValue_ok `{ClangEnv} Option ValueInfo ValueExpr v :
  loopHintValue Option ValueInfo ValueExpr = inr v ->
  loopHintValueOk Option v.
Proof.
  unfold loopHintValue, loopHintValueOk.
  destruct (isEnableOption Option).
  - destruct ValueInfo as [ValueName|]; [|discriminate].
    destruct (String.eqb ValueName "disable"); [intros [= <-]; now left|].
    destruct (String.eqb ValueName "enable"); [intros [= <-]; now right|].
    discriminate.
  - destruct ValueExpr as [E|]; [|discriminate].
    destruct (isIntegerConstantExpr E) as [ValueAPS|]; [|discriminate].
    destruct (Z.ltb_spec (int_of_int64 (getSExtValue ValueAPS)) 1);
      [discriminate|].
    intros [= <-].
    pose proof (int_of_int64_range (getSExtValue ValueAPS)) as Hr.
    unfold fits_int in Hr. lia.
Qed.

(** What an accepted loop hint looks like. *)
Lemma handleLoopHintAttr_accepts `{ClangEnv}
    (St : Stmt) (A : AttributeList) (Range : SourceRange) (S S' : Sema)
    (a : Attr) :
  handleLoopHintAttr St A Range S = Returns (Some a) S' ->
  isLoopStmtClass (getStmtClass St) = true /\
  (exists Option v,
      a = LoopHintAttr (getRange A) Option v true /\
      loopHintValueOk Option v) /\
  S' = addNodes S [NodeAttr a].
Proof.
  intros Hrun.
  destruct (isLoopStmtClass (getStmtClass St)) eqn:HL.
  - assert (Hargs : loopHintArgs A)
      by (apply (handleLoopHintAttr_returns_iff St A Range S HL); eauto).
    destruct Hargs as (L & Name & VL & E & rest & HA).
    rewrite (handleLoopHintAttr_run St A Range S L Name VL E rest HL HA)
      in Hrun.
    destruct (loopHintValue (OptionSwitch Name) (Ident VL) E) as [id|v] eqn:HV;
      [discriminate|].
    injection Hrun as <- <-.
    split; [reflexivity|]. split; [|reflexivity].
    exists (OptionSwitch Name), v. split; [reflexivity|].
    exact (loopHintValue_ok _ _ _ _ HV).
  - rewrite (handleLoopHintAttr_nonloop St A Range S HL) in Hrun.
    discriminate.
Qed.

(** X2. Whatever the handler is given, a record it returns is an implicit
    loop hint over the attribute's range, the statement is a loop, the
    value is 0 or 1 under an enable/disable option and between 1 and
    2^31 - 1 under a numeric option, and the run did nothing but allocate
    that record: no diagnostic accompanies an accepted hint. *)
Theorem handleLoopHintAttr_record_invariant `{ClangEnv}
    (St : Stmt) (A : AttributeList) (Range : SourceRange) (S S' : Sema)
    (a : Attr) :
  handleLoopHintAttr St A Range S = Returns (Some a) S' ->
  isLoopStmtClass (getStmtClass St) = true /\
  (exists Option v,
      a = LoopHintAttr (getRange A) Option v true /\
      loopHintValueOk Option v) /\
  S' = addNodes S [NodeAttr a].
Proof.
  intros Hrun.
  destruct (isLoopStmtClass (getStmtClass St)) eqn:HL.
  - assert (Hargs : loopHintArgs A)
      by (apply (handleLoopHintAttr_returns_iff St A Range S HL); eauto).
    destruct Hargs as (L & Name & VL & E & rest & HA).
    rewrite (handleLoopHintAttr_run St A Range S L Name VL E rest HL HA)
      in Hrun.
    destruct (loopHintValue (OptionSwitch Name) (Ident VL) E) as [id|v] eqn:HV;
      [discriminate|].
    injection Hrun as <- <-.
    split; [reflexivity|]. split; [|reflexivity].
    exists (OptionSwitch Name), v. split; [reflexivity|].
    exact (loopHintValue_ok _ _ _ _ HV).
  - rewrite (handleLoopHintAttr_nonloop St A Range S HL) in Hrun.
    discriminate.
Qed.

Lemma handleLoopHintAttr_record_invariant_witness :
  isLoopStmtClass (getStmtClass (PlainStmt DoStmtClass 60)) = true /\
  (exists Option v,
      LoopHintAttr (mkSourceRange 20 47) InterleaveCount 8 true =
        LoopHintAttr (mkSourceRange 20 47) Option v true /\
      loopHintValueOk Option v) /\
  mkSema (mkFunctionScopeInfo []) []
    [NodeAttr (LoopHintAttr (mkSourceRange 20 47) InterleaveCount 8 true)] =
  addNodes (emptySema [])
    [NodeAttr (LoopHintAttr (mkSourceRange 20 47) InterleaveCount 8 true)].
Proof.
  exact (handleLoopHintAttr_record_invariant (H := LitEnv)
           (PlainStmt DoStmtClass 60)
           (loopHintAt (mkSourceRange 20 47) "interleave_count" None
              (Some (IntegerLiteral 8)))
           (mkSourceRange 20 47) (emptySema []) _ _ eq_refl).
Defined.

(** X3. On a loop, with the arguments in shape and an enable/disable
    option (vectorize, interleave, unroll, or any unknown spelling), the
    value expression plays no part: the identifier enable gives a record
    with value 1, disable a record with value 0, and a null identifier or
    any other spelling gives no record and the invalid-keyword error at
    the value's location. *)
Theorem handleLoopHintAttr_keyword `{ClangEnv}
    (St : Stmt) (A : AttributeList) (Range : SourceRange) (S : Sema)
    (L : SourceLocation) (Name : string) (VL : IdentifierLoc)
    (E : option Expr) (rest : list ArgsUnion) :
  isLoopStmtClass (getStmtClass St) = true ->
  Args A = ArgIdent (Some (mkIdentifierLoc L (Some Name)))
           :: ArgIdent (Some VL) :: ArgExpr E :: rest ->
  isEnableOption (OptionSwitch Name) = true ->
  (Ident VL = Some "enable"%string ->
   handleLoopHintAttr St A Range S =
     Returns (Some (LoopHintAttr (getRange A) (OptionSwitch Name) 1 true))
       (addNodes S
          [NodeAttr (LoopHintAttr (getRange A) (OptionSwitch Name) 1 true)])) /\
  (Ident VL = Some "disable"%string ->
   handleLoopHintAttr St A Range S =
     Returns (Some (LoopHintAttr (getRange A) (OptionSwitch Name) 0 true))
       (addNodes S
          [NodeAttr (LoopHintAttr (getRange A) (OptionSwitch Name) 0 true)])) /\
  (Ident VL <> Some "enable"%string ->
   Ident VL <> Some "disable"%string ->
   handleLoopHintAttr St A Range S =
     Returns None
       (addDiags S
          [mkDiagnostic (Loc VL) err_pragma_loop_invalid_keyword []])).
Proof.
  intros HL HA HE.
  rewrite (handleLoopHintAttr_run St A Range S L Name VL E rest HL HA).
  destruct (loopHintValue_keyword (OptionSwitch Name) (Ident VL) E HE)
    as (Hen & Hdis & Hbad).
  split; [|split].
  - intros HV. now rewrite (Hen HV).
  - intros HV. now rewrite (Hdis HV).
  - intros HV1 HV2. now rewrite (Hbad HV1 HV2).
Qed.

Lemma handleLoopHintAttr_keyword_witness :
  handleLoopHintAttr (PlainStmt ForStmtClass 60)
      (loopHintAt (mkSourceRange 20 47) "interleave" (Some "Enable"%string)
         (Some (IntegerLiteral 4)))
      (mkSourceRange 20 47) (emptySema []) =
    Returns None
      (mkSema (mkFunctionScopeInfo [])
         [mkDiagnostic 21 err_pragma_loop_invalid_keyword []] []).
Proof.
  refine (proj2 (proj2
            (handleLoopHintAttr_keyword (H := LitEnv)
               (PlainStmt ForStmtClass 60)
               (loopHintAt (mkSourceRange 20 47) "interleave"
                  (Some "Enable"%string) (Some (IntegerLiteral 4)))
               (mkSourceRange 20 47) (emptySema [])
               20 "interleave"%string
               (mkIdentifierLoc 21 (Some "Enable"%string))
               (Some (IntegerLiteral 4)) [] eq_refl eq_refl eq_refl)) _ _);
    simpl; discriminate.
Defined.

(** X4. On a loop, with the arguments in shape and a numeric option, the
    value identifier plays no part. A null expression or one that is no
    integer constant gives no record and the invalid-value error at the
    value's location; a constant that fits a 32-bit int is accepted exactly
    from 1 upwards, and the record then carries that very value. *)
Theorem handleLoopHintAttr_numeric_in_range `{ClangEnv}
    (St : Stmt) (A : AttributeList) (Range : SourceRange) (S : Sema)
    (L : SourceLocation) (Name : string) (VL : IdentifierLoc)
    (E : option Expr) (rest : list ArgsUnion) :
  isLoopStmtClass (getStmtClass St) = true ->
  Args A = ArgIdent (Some (mkIdentifierLoc L (Some Name)))
           :: ArgIdent (Some VL) :: ArgExpr E :: rest ->
  isEnableOption (OptionSwitch Name) = false ->
  (E = None \/ (exists E', E = Some E' /\ isIntegerConstantExpr E' = None) ->
   handleLoopHintAttr St A Range S =
     Returns None
       (addDiags S [mkDiagnostic (Loc VL) err_pragma_loop_invalid_value []])) /\
  (forall E' ValueAPS,
      E = Some E' ->
      isIntegerConstantExpr E' = Some ValueAPS ->
      fits_int (getSExtValue ValueAPS) ->
      handleLoopHintAttr St A Range S =
        if (1 <=? getSExtValue ValueAPS)%Z
        then Returns
               (Some (LoopHintAttr (getRange A) (OptionSwitch Name)
                        (getSExtValue ValueAPS) true))
               (addNodes S
                  [NodeAttr (LoopHintAttr (getRange A) (OptionSwitch Name)
                               (getSExtValue ValueAPS) true)])
        else Returns None
               (addDiags S
                  [mkDiagnostic (Loc VL) err_pragma_loop_invalid_value []])).
Proof.
  intros HL HA HE.
  rewrite (handleLoopHintAttr_run St A Range S L Name VL E rest HL HA).
  split.
  - intros Hmiss.
    now rewrite (loopHintValue_numeric_missing _ (Ident VL) E HE Hmiss).
  - intros E' ValueAPS -> HC Hfit.
    rewrite (loopHintValue_numeric_fits _ (Ident VL) E' ValueAPS HE HC Hfit).
    now destruct (1 <=? getSExtValue ValueAPS)%Z.
Qed.

Lemma handleLoopHintAttr_numeric_in_range_witness :
  handleLoopHintAttr (PlainStmt ForStmtClass 60)
      (loopHintAt (mkSourceRange 20 47) "vectorize_width"
         (Some "enable"%string) (Some (IntegerLiteral 2147483647)))
      (mkSourceRange 20 47) (emptySema []) =
    Returns
      (Some (LoopHintAttr (mkSourceRange 20 47) VectorizeWidth 2147483647 true))
      (mkSema (mkFunctionScopeInfo []) []
         [NodeAttr
            (LoopHintAttr (mkSourceRange 20 47) VectorizeWidth 2147483647
               true)]).
Proof.
  refine (proj2
            (handleLoopHintAttr_numeric_in_range (H := LitEnv)
               (PlainStmt ForStmtClass 60)
               (loopHintAt (mkSourceRange 20 47) "vectorize_width"
                  (Some "enable"%string) (Some (IntegerLiteral 2147483647)))
               (mkSourceRange 20 47) (emptySema [])
               20 "vectorize_width"%string
               (mkIdentifierLoc 21 (Some "enable"%string))
               (Some (IntegerLiteral 2147483647)) [] eq_refl eq_refl eq_refl)
            (IntegerLiteral 2147483647) 2147483647%Z eq_refl eq_refl _).
  unfold fits_int; simpl; lia.
Defined.

(** ** The dispatcher and the binder *)

(** A record fits the statement it was accepted on. *)
Lemma isa_NullStmt_not_loop St :
  isa_NullStmt St = true -> isLoopStmtClass (getStmtClass St) = false.
Proof.
  unfold isa_NullStmt. now destruct (getStmtClass St).
Qed.

Lemma handleFallThroughAttr_accepts `{ClangEnv} St A Range S a S' :
  handleFallThroughAttr St A Range S = Returns (Some a) S' ->
  isa_NullStmt St = true /\
  a = FallThroughAttr (getRange A) (getAttributeSpellingListIndex A).
Proof.
  unfold handleFallThroughAttr.
  destruct (isa_NullStmt St); simpl.
  - unfold bind, getSema.
    destruct (bool_decide (SwitchStack (getCurFunction S) = []));
      unfold bind, Diag, allocate, ret; [discriminate|].
    intros [= <- _]. now split.
  - unfold bind, Diag, ret.
    destruct (isa_SwitchCase St); discriminate.
Qed.

Lemma recordOf_accepts `{ClangEnv} St Range S A a :
  recordOf St Range S A = Some a ->
  recordOk a /\
  isa_NullStmt St = negb (isa_LoopHintAttr a) /\
  isLoopStmtClass (getStmtClass St) = isa_LoopHintAttr a.
Proof.
  unfold recordOf, ProcessStmtAttribute.
  destruct (getKind A).
  - discriminate.
  - destruct (handleFallThroughAttr St A Range S) as [r S'|f] eqn:Hrun;
      [|discriminate].
    intros ->. destruct (handleFallThroughAttr_accepts _ _ _ _ _ _ Hrun)
      as [HN ->].
    simpl. rewrite HN, (isa_NullStmt_not_loop St HN). now repeat split.
  - destruct (handleLoopHintAttr St A Range S) as [r S'|f] eqn:Hrun;
      [|discriminate].
    intros ->. destruct (handleLoopHintAttr_accepts _ _ _ _ _ _ Hrun)
      as (HL & (Option & v & -> & Hv) & _).
    simpl. rewrite HL. repeat split; [assumption|].
    destruct (isa_NullStmt St) eqn:HN; [|reflexivity].
    rewrite (isa_NullStmt_not_loop St HN) in HL. discriminate.
  - discriminate.
Qed.

(** X5. An attribute the dispatcher can process is either accepted in
    silence or turned down with a diagnostic, never both and never
    neither: the run appends no diagnostic exactly when it returns a
    record, at most two otherwise, allocates the record and nothing
    else, and leaves the function scope alone. *)
Theorem ProcessStmtAttribute_diagnosed `{ClangEnv}
    (St : Stmt) (A : AttributeList) (Range : SourceRange) (S : Sema) :
  processable St A ->
  exists r ds,
    ProcessStmtAttribute St A Range S =
      Returns r (addNodes (addDiags S ds) (nodesOf r)) /\
    (r = None <-> ds <> []) /\
    length ds <= 2.
Proof.
  intros Hok. unfold ProcessStmtAttribute.
  destruct (getKind A) eqn:HK.
  - eexists None, [_]. rewrite addNodes_nil.
    split; [reflexivity|]. split; [now split|simpl; lia].
  - unfold handleFallThroughAttr.
    destruct (isa_NullStmt St); simpl.
    + unfold bind, getSema.
      destruct (bool_decide (SwitchStack (getCurFunction S) = [])).
      * eexists None, [_]. rewrite addNodes_nil.
        split; [reflexivity|]. split; [now split|simpl; lia].
      * eexists (Some _), []. rewrite addDiags_nil.
        split; [reflexivity|].
        split; [split; [discriminate|intros HF; now contradiction HF]|].
        simpl; lia.
    + destruct (isa_SwitchCase St).
      * eexists None, [_; _]. rewrite addNodes_nil. split.
        { unfold bind, Diag, ret, addDiags; simpl. now rewrite <- app_assoc. }
        split; [now split|simpl; lia].
      * eexists None, [_]. rewrite addNodes_nil.
        split; [reflexivity|]. split; [now split|simpl; lia].
  - destruct (isLoopStmtClass (getStmtClass St)) eqn:HL.
    + destruct (Hok HK HL) as (L & Name & VL & E & rest & HA).
      rewrite (handleLoopHintAttr_run St A Range S L Name VL E rest HL HA).
      destruct (loopHintValue (OptionSwitch Name) (Ident VL) E) as [id|v].
      * eexists None, [_]. rewrite addNodes_nil.
        split; [reflexivity|]. split; [now split|simpl; lia].
      * eexists (Some _), []. rewrite addDiags_nil.
        split; [reflexivity|].
        split; [split; [discriminate|intros HF; now contradiction HF]|].
        simpl; lia.
    + rewrite (handleLoopHintAttr_nonloop St A Range S HL).
      eexists None, [_]. rewrite addNodes_nil.
      split; [reflexivity|]. split; [now split|simpl; lia].
  - eexists None, [_]. rewrite addNodes_nil.
    split; [reflexivity|]. split; [now split|simpl; lia].
Qed.

Lemma ProcessStmtAttribute_diagnosed_witness :
  exists r ds,
    ProcessStmtAttribute (PlainStmt CaseStmtClass 40)
        (fallthroughAt (mkSourceRange 12 23) 1) (mkSourceRange 10 25)
        (emptySema [3]) =
      Returns r (addNodes (addDiags (emptySema [3]) ds) (nodesOf r)) /\
    (r = None <-> ds <> []) /\
    length ds <= 2.
Proof.
  apply (ProcessStmtAttribute_diagnosed (H := LitEnv)).
  intros HK. discriminate HK.
Defined.

Lemma ProcessStmtAttribute_returns_processable `{ClangEnv} St A Range S r S' :
  ProcessStmtAttribute St A Range S = Returns r S' -> processable St A.
Proof.
  intros Hrun HK HL. unfold ProcessStmtAttribute in Hrun. rewrite HK in Hrun.
  apply (handleLoopHintAttr_returns_iff St A Range S HL). eauto.
Qed.

Lemma collectAttrs_returns_processable `{ClangEnv} St Range l :
  forall acc S rs S',
    collectAttrs St l Range acc S = Returns rs S' ->
    Forall (processable St) l.
Proof.
  induction l as [|A l IH]; intros acc S rs S' Hrun; [constructor|].
  simpl in Hrun. unfold bind in Hrun.
  destruct (ProcessStmtAttribute St A Range S) as [r S1|f] eqn:HA;
    [|discriminate].
  constructor.
  - exact (ProcessStmtAttribute_returns_processable _ _ _ _ _ _ HA).
  - exact (IH _ _ _ _ Hrun).
Qed.

(** The binder, once the first loop went through. *)
Lemma ProcessStmtAttributes_after_collect `{ClangEnv} S0 AttrList Range Sm :
  Forall (processable S0) AttrList ->
  exists ds,
    ProcessStmtAttributes S0 AttrList Range Sm =
      match omap (recordOf S0 Range Sm) AttrList with
      | [] => Returns S0 (addDiags Sm ds)
      | a :: Attrs =>
          Returns (AttributedStmt (getBegin Range) (a :: Attrs) S0)
            (addNodes (addDiags Sm ds)
               (map NodeAttr (a :: Attrs) ++
                [NodeStmt (AttributedStmt (getBegin Range) (a :: Attrs) S0)]))
      end.
Proof.
  intros Hok.
  destruct (collectAttrs_run S0 Range (getCurFunction Sm) AttrList [] Hok)
    as (rs & ds & Hrun).
  destruct (Hrun Sm eq_refl) as [Hcol Hrs]. simpl in Hcol. subst rs.
  destruct (CheckForIncompatibleAttributes_runs
              (omap (recordOf S0 Range Sm) AttrList)) as [dsc Hchk].
  exists (ds ++ dsc). unfold ProcessStmtAttributes.
  rewrite (bind_Returns _ _ _ _ _ Hcol).
  rewrite (bind_Returns _ _ _ _ _ (Hchk _)).
  destruct (omap (recordOf S0 Range Sm) AttrList) as [|a Attrs]; simpl.
  - unfold ret, addNodes, addDiags; simpl.
    now rewrite app_nil_r, app_assoc.
  - unfold ActOnAttributedStmt, bind, allocate, ret, addNodes, addDiags; simpl.
    now rewrite <- !app_assoc.
Qed.

Lemma ProcessStmtAttributes_returns_processable `{ClangEnv} S0 AttrList Range
    Sm R S' :
  ProcessStmtAttributes S0 AttrList Range Sm = Returns R S' ->
  Forall (processable S0) AttrList.
Proof.
  intros Hrun. unfold ProcessStmtAttributes, bind in Hrun.
  destruct (collectAttrs S0 AttrList Range [] Sm) as [rs S1|f] eqn:Hcol;
    [|discriminate].
  exact (collectAttrs_returns_processable _ _ _ _ _ _ _ Hcol).
Qed.


(** X7. Whenever the binder returns, it returns either the statement it
    was given or an attributed statement at the beginning of the range
    over that statement, with at least one record. Every record in it is
    well formed (a loop hint is implicit, with 0 or 1 under an
    enable/disable option and a value from 1 to 2^31 - 1 under a numeric
    one), and the records are never mixed: on a null statement they are
    all fallthrough records, on a loop all loop hints, and on any other
    statement there is none. *)
Theorem ProcessStmtAttributes_records_fit `{ClangEnv}
    (S0 : Stmt) (AttrList : list AttributeList) (Range : SourceRange)
    (Sm S' : Sema) (R : Stmt) :
  ProcessStmtAttributes S0 AttrList Range Sm = Returns R S' ->
  R = S0 \/
  exists a Attrs,
    R = AttributedStmt (getBegin Range) (a :: Attrs) S0 /\
    Forall recordOk (a :: Attrs) /\
    (isa_NullStmt S0 = true /\
     Forall (fun a' => isa_LoopHintAttr a' = false) (a :: Attrs) \/
     isLoopStmtClass (getStmtClass S0) = true /\
     Forall (fun a' => isa_LoopHintAttr a' = true) (a :: Attrs)).
Proof.
  intros Hrun.
  pose proof (ProcessStmtAttributes_returns_processable _ _ _ _ _ _ Hrun)
    as Hok.
  destruct (ProcessStmtAttributes_after_collect S0 AttrList Range Sm Hok)
    as [ds Hshape].
  rewrite Hshape in Hrun.
  assert (Hfit : Forall (fun a' =>
                   recordOk a' /\
                   isa_NullStmt S0 = negb (isa_LoopHintAttr a') /\
                   isLoopStmtClass (getStmtClass S0) = isa_LoopHintAttr a')
                 (omap (recordOf S0 Range Sm) AttrList)).
  { apply Forall_forall. intros a' Hin.
    apply list_elem_of_omap in Hin as (A & _ & HA).
    exact (recordOf_accepts _ _ _ _ _ HA). }
  destruct (omap (recordOf S0 Range Sm) AttrList) as [|a Attrs].
  - left. now injection Hrun as <- _.
  - right. injection Hrun as <- _. exists a, Attrs.
    split; [reflexivity|]. split.
    + eapply Forall_impl; [exact Hfit|]. now intros a' [Hr _].
    + destruct (isa_NullStmt S0) eqn:HN.
      * left. split; [reflexivity|].
        eapply Forall_impl; [exact Hfit|]. intros a' (_ & Hn & _).
        now destruct (isa_LoopHintAttr a').
      * right. apply Forall_cons in Hfit as Hhd.
        destruct Hhd as [(_ & Hn & Hl) _].
        assert (HL : isLoopStmtClass (getStmtClass S0) = true)
          by (rewrite Hl; now destruct (isa_LoopHintAttr a)).
        split; [exact HL|].
        eapply Forall_impl; [exact Hfit|]. intros a' (_ & _ & Hl').
        now rewrite <- Hl'.
Qed.

Lemma ProcessStmtAttribute_rejects `{ClangEnv} St A Range S :
  notStmtAttribute A ->
  ProcessStmtAttribute St A Range S =
    Returns None (addDiags S [rejectionDiag St A]).
Proof.
  unfold ProcessStmtAttribute, rejectionDiag.
  intros [HK|[k HK]]; now rewrite HK.
Qed.

Lemma collectAttrs_rejects `{ClangEnv} St Range l : forall acc S,
  Forall notStmtAttribute l ->
  collectAttrs St l Range acc S =
    Returns acc (addDiags S (map (rejectionDiag St) l)).
Proof.
  induction l as [|A l IH]; intros acc S Hl.
  - simpl. unfold ret. now rewrite addDiags_nil.
  - apply Forall_cons in Hl as [HA Hl]. simpl.
    rewrite (bind_Returns _ _ _ _ _ (ProcessStmtAttribute_rejects St A Range S HA)).
    rewrite (IH _ _ Hl). now rewrite addDiags_app.
Qed.

(** X8. A list made of unknown attributes and declaration attributes only
    (the empty list included) leaves the statement as it is and allocates
    nothing; the sink receives one diagnostic per attribute, in list order:
    for an unknown attribute the ignored-attribute warning (its declspec
    variant for a declspec spelling) at the attribute's location, for a
    declaration attribute the invalid-on-statement error at the beginning
    of the attribute's range, each naming the attribute. *)
Theorem ProcessStmtAttributes_rejects `{ClangEnv}
    (S0 : Stmt) (AttrList : list AttributeList) (Range : SourceRange)
    (Sm : Sema) :
  Forall notStmtAttribute AttrList ->
  ProcessStmtAttributes S0 AttrList Range Sm =
    Returns S0 (addDiags Sm (map (rejectionDiag S0) AttrList)).
Proof.
  intros Hl. unfold ProcessStmtAttributes.
  rewrite (bind_Returns _ _ _ _ _ (collectAttrs_rejects S0 Range AttrList [] Sm Hl)).
  reflexivity.
Qed.

Lemma ProcessStmtAttributes_rejects_witness :
  ProcessStmtAttributes (PlainStmt ReturnStmtClass 70)
      [mkAttributeList (H := LitEnv) UnknownAttribute "frobnicate"%string
         (mkSourceRange 42 52) true 0 [];
       mkAttributeList (H := LitEnv) (AT_DeclAttribute 5) "noreturn"%string
         (mkSourceRange 54 62) false 0 []]
      (mkSourceRange 40 64) (emptySema []) =
    Returns (PlainStmt ReturnStmtClass 70)
      (mkSema (mkFunctionScopeInfo [])
         [mkDiagnostic 42 warn_unhandled_ms_attribute_ignored
            [DiagIdentifier "frobnicate"];
          mkDiagnostic 54 err_attribute_invalid_on_stmt
            [DiagIdentifier "noreturn";
             DiagSourceRange (mkSourceRange 70 70)]]
         []).
Proof.
  assert (Hl : Forall notStmtAttribute
            [mkAttributeList (H := LitEnv) UnknownAttribute "frobnicate"%string
               (mkSourceRange 42 52) true 0 [];
             mkAttributeList (H := LitEnv) (AT_DeclAttribute 5)
               "noreturn"%string (mkSourceRange 54 62) false 0 []]).
  { constructor; [now left|].
    constructor; [right; now exists 5|constructor]. }
  exact (ProcessStmtAttributes_rejects (H := LitEnv)
           (PlainStmt ReturnStmtClass 70) _ (mkSourceRange 40 64)
           (emptySema []) Hl).
Defined.

(** ** The compatibility check over a whole vector *)

Lemma checkLoop_app `{ClangEnv} l1 l2 : forall Options S,
  checkLoop (l1 ++ l2) Options S =
  (Options' <- checkLoop l1 Options ;; checkLoop l2 Options') S.
Proof.
  induction l1 as [|I_ l1 IH]; intros Options S; [reflexivity|].
  simpl. unfold bind.
  destruct (checkAttr I_ Options S) as [O1 S1|f]; [|reflexivity].
  rewrite IH. reflexivity.
Qed.

(** Checking a vector that continues another one first reports what the
    shorter vector reports and then only adds to it. *)
Lemma CheckForIncompatibleAttributes_prefix `{ClangEnv}
    (l1 l2 : list Attr) :
  exists ds1 ds2,
    forall S,
      CheckForIncompatibleAttributes l1 S = Returns l1 (addDiags S ds1) /\
      CheckForIncompatibleAttributes (l1 ++ l2) S =
        Returns (l1 ++ l2) (addDiags S (ds1 ++ ds2)).
Proof.
  destruct (checkLoop_runs l1 Options0 eq_refl) as (ds1 & O1 & HL1 & H1).
  destruct (checkLoop_runs l2 O1 HL1) as (ds2 & O2 & _ & H2).
  exists ds1, ds2. intros S. unfold CheckForIncompatibleAttributes. split.
  - now rewrite (bind_Returns _ _ _ _ _ (H1 S)).
  - assert (Hrun : checkLoop (l1 ++ l2) Options0 S =
                   Returns O2 (addDiags S (ds1 ++ ds2))).
    { rewrite checkLoop_app, (bind_Returns _ _ _ _ _ (H1 S)), H2.
      now rewrite addDiags_app. }
    now rewrite (bind_Returns _ _ _ _ _ Hrun).
Qed.

(** ** The trackers hold the last hint of each option *)

Lemma lastHint_snoc Option l a :
  lastHint Option (l ++ [a]) =
    match a with
    | LoopHintAttr _ Option' v _ =>
        if OptionType_eqb Option' Option then Some v else lastHint Option l
    | FallThroughAttr _ _ => lastHint Option l
    end.
Proof.
  induction l as [|x l IH]; simpl.
  - destruct a as [R idx|R Option' v i]; [reflexivity|].
    now destruct (OptionType_eqb Option' Option).
  - rewrite IH. destruct a as [R idx|R Option' v i]; [reflexivity|].
    now destruct (OptionType_eqb Option' Option).
Qed.

Lemma OptionsOf_lookup l Option :
  OptionsOf l !! CategoryOf Option =
    Some (trackerOf l (EnableOptionOf Option) (NumericOptionOf Option)).
Proof. now destruct Option. Qed.

Lemma OptionsOf_snoc_FallThrough l R idx :
  OptionsOf (l ++ [FallThroughAttr R idx]) = OptionsOf l.
Proof. unfold OptionsOf, trackerOf. now rewrite !lastHint_snoc. Qed.

Lemma OptionsOf_snoc_LoopHint l R Option v i :
  <[CategoryOf Option :=
      trackerAfter Option v
        (trackerOf l (EnableOptionOf Option) (NumericOptionOf Option))]>
    (OptionsOf l) =
  OptionsOf (l ++ [LoopHintAttr R Option v i]).
Proof.
  unfold OptionsOf, trackerOf. rewrite !lastHint_snoc.
  destruct Option; reflexivity.
Qed.

Lemma trackerOf_snoc_LoopHint l R Option v i :
  trackerOf (l ++ [LoopHintAttr R Option v i])
    (EnableOptionOf Option) (NumericOptionOf Option) =
  trackerAfter Option v
    (trackerOf l (EnableOptionOf Option) (NumericOptionOf Option)).
Proof.
  unfold trackerOf. rewrite !lastHint_snoc.
  destruct Option; reflexivity.
Qed.

Lemma checkAttr_OptionsOf `{ClangEnv} l a S :
  checkAttr a (OptionsOf l) S =
    Returns (OptionsOf (l ++ [a])) (addDiags S (newDiags l a)).
Proof.
  destruct a as [R idx|R Option v i].
  - rewrite OptionsOf_snoc_FallThrough. simpl. now rewrite addDiags_nil.
  - rewrite (checkAttr_LoopHint _ _ _ _ _ _ _ (OptionsOf_lookup l Option)).
    unfold newDiags.
    now rewrite (OptionsOf_snoc_LoopHint l R Option v i),
      (trackerOf_snoc_LoopHint l R Option v i).
Qed.

(** After any records, the array holds for each category what the last
    hint of either kind stored. *)
Lemma checkLoop_OptionsOf `{ClangEnv} l :
  exists ds,
    forall S, checkLoop l Options0 S = Returns (OptionsOf l) (addDiags S ds).
Proof.
  induction l as [|a l IH] using rev_ind.
  - exists []. intros S. simpl. unfold ret. now rewrite addDiags_nil.
  - destruct IH as [ds IH]. exists (ds ++ newDiags l a). intros S.
    rewrite checkLoop_app, (bind_Returns _ _ _ _ _ (IH S)). simpl.
    rewrite (bind_Returns _ _ _ _ _ (checkAttr_OptionsOf l a _)).
    unfold ret. now rewrite addDiags_app.
Qed.

Lemma CheckForIncompatibleAttributes_snoc `{ClangEnv} l a :
  exists ds,
    forall S,
      CheckForIncompatibleAttributes l S = Returns l (addDiags S ds) /\
      CheckForIncompatibleAttributes (l ++ [a]) S =
        Returns (l ++ [a]) (addDiags S (ds ++ newDiags l a)).
Proof.
  destruct (checkLoop_OptionsOf l) as [ds Hl]. exists ds. intros S.
  unfold CheckForIncompatibleAttributes. split.
  - now rewrite (bind_Returns _ _ _ _ _ (Hl S)).
  - assert (Hrun : checkLoop (l ++ [a]) Options0 S =
                   Returns (OptionsOf (l ++ [a]))
                     (addDiags S (ds ++ newDiags l a))).
    { rewrite checkLoop_app, (bind_Returns _ _ _ _ _ (Hl S)). simpl.
      rewrite (bind_Returns _ _ _ _ _ (checkAttr_OptionsOf l a _)).
      unfold ret. now rewrite addDiags_app. }
    now rewrite (bind_Returns _ _ _ _ _ Hrun).
Qed.

Lemma EnableOptionOf_enable Option :
  isEnableOption Option = true -> EnableOptionOf Option = Option.
Proof. now destruct Option. Qed.

Lemma NumericOptionOf_numeric Option :
  isEnableOption Option = false -> NumericOptionOf Option = Option.
Proof. now destruct Option. Qed.

(** X9. What a loop hint adds when it is checked after the records
    [Attrs] is fixed by the last hints before it. It is reported as a
    duplicate exactly when an earlier hint has the same option, and the
    value it is compared with is that of the most recent such hint (not the
    first). It is then reported as incompatible exactly when, counting the
    new hint, the category's most recent enable/disable hint has value 0
    and the category has a numeric hint; the diagnostic carries the most
    recent numeric value. Everything reported for [Attrs] stays in front.
    Duplicate first, incompatible second, both at the end of the new
    record's range. *)
Theorem CheckForIncompatibleAttributes_appended_hint `{ClangEnv}
    (Attrs : list Attr) (R : SourceRange) (Option : OptionType) (v : Z)
    (i : bool) :
  exists ds,
    forall S,
      CheckForIncompatibleAttributes Attrs S =
        Returns Attrs (addDiags S ds) /\
      CheckForIncompatibleAttributes (Attrs ++ [LoopHintAttr R Option v i]) S =
        Returns (Attrs ++ [LoopHintAttr R Option v i])
          (addDiags S
             (ds ++
              match lastHint Option Attrs with
              | Some old =>
                  [if isEnableOption Option
                   then duplicateEnableDiag (getEnd R) Option
                          (bool_of_int old) v
                   else duplicateValueDiag (getEnd R) Option old v]
              | None => []
              end ++
              match
                lastHint (EnableOptionOf Option)
                  (Attrs ++ [LoopHintAttr R Option v i]),
                lastHint (NumericOptionOf Option)
                  (Attrs ++ [LoopHintAttr R Option v i])
              with
              | Some e, Some n =>
                  if bool_of_int e then []
                  else [incompatibleDiag (getEnd R)
                          (mkCategoryState (EnableOptionOf Option)
                             (NumericOptionOf Option) true true false n)]
              | _, _ => []
              end)).
Proof.
  destruct (CheckForIncompatibleAttributes_snoc Attrs
              (LoopHintAttr R Option v i)) as [ds Hds].
  exists ds. intros S. destruct (Hds S) as [H1 H2].
  split; [exact H1|]. rewrite H2. f_equal. f_equal. f_equal.
  unfold newDiags. f_equal.
  - unfold duplicateDiags, trackerOf; simpl.
    destruct (isEnableOption Option) eqn:HE.
    + rewrite (EnableOptionOf_enable _ HE).
      now destruct (lastHint Option Attrs).
    + rewrite (NumericOptionOf_numeric _ HE).
      now destruct (lastHint Option Attrs).
  - unfold disabledWithValue, trackerOf; simpl.
    destruct (lastHint (EnableOptionOf Option)
                (Attrs ++ [LoopHintAttr R Option v i])) as [e|];
      [|reflexivity]; simpl.
    destruct (lastHint (NumericOptionOf Option)
                (Attrs ++ [LoopHintAttr R Option v i])) as [n|]; simpl;
      [|now rewrite andb_false_r].
    destruct (bool_of_int e) eqn:Hb; simpl; [reflexivity|].
    reflexivity.
Qed.

(** Enable, disable, enable on one option: each duplicate is reported
    against the hint just before it. *)
Example duplicate_against_most_recent :
  CheckForIncompatibleAttributes (H := LitEnv)
      [LoopHintAttr (mkSourceRange 1 5) Unroll 1 true;
       LoopHintAttr (mkSourceRange 6 9) Unroll 0 true;
       LoopHintAttr (mkSourceRange 10 14) Unroll 1 true] (emptySema []) =
    Returns
      [LoopHintAttr (mkSourceRange 1 5) Unroll 1 true;
       LoopHintAttr (mkSourceRange 6 9) Unroll 0 true;
       LoopHintAttr (mkSourceRange 10 14) Unroll 1 true]
      (mkSema (mkFunctionScopeInfo [])
         [mkDiagnostic 9 err_pragma_loop_compatibility
            [DiagBool true; DiagString "unroll"; DiagString "enable";
             DiagString "unroll"; DiagString "disable"];
          mkDiagnostic 14 err_pragma_loop_compatibility
            [DiagBool true; DiagString "unroll"; DiagString "disable";
             DiagString "unroll"; DiagString "enable"]]
         []).
Proof. reflexivity. Qed.

Lemma lastHint_no_hints Option l :
  List.filter isa_LoopHintAttr l = [] -> lastHint Option l = None.
Proof.
  induction l as [|a l IH]; [reflexivity|]. simpl.
  destruct a as [R idx|R Option' v i]; simpl; [|discriminate].
  intros Hl. now rewrite (IH Hl).
Qed.

Lemma newDiags_shape `{ClangEnv} l R Option v i :
  Forall (fun d => DiagKind d = err_pragma_loop_compatibility /\
                   DiagLoc d = getEnd R)
         (newDiags l (LoopHintAttr R Option v i)) /\
  length (newDiags l (LoopHintAttr R Option v i)) <= 2.
Proof.
  unfold newDiags, duplicateDiags.
  destruct (isEnableOption Option);
    [destruct (EnabledIsSet _)|destruct (ValueIsSet _)];
    destruct (disabledWithValue _); simpl;
    (split; [repeat constructor|lia]).
Qed.

Lemma newDiags_first `{ClangEnv} l a :
  List.filter isa_LoopHintAttr l = [] -> newDiags l a = [].
Proof.
  intros Hl. destruct a as [R idx|R Option v i]; [reflexivity|].
  unfold newDiags, duplicateDiags, disabledWithValue, trackerOf.
  rewrite !lastHint_snoc, !(lastHint_no_hints _ l Hl).
  destruct Option; simpl; rewrite ?andb_false_r; reflexivity.
Qed.

Lemma checkLoop_diags `{ClangEnv} l :
  exists ds,
    (forall S,
        checkLoop l Options0 S = Returns (OptionsOf l) (addDiags S ds)) /\
    Forall (fun d =>
              DiagKind d = err_pragma_loop_compatibility /\
              exists R Option v i,
                In (LoopHintAttr R Option v i) l /\ DiagLoc d = getEnd R) ds /\
    length ds <= 2 * (length (List.filter isa_LoopHintAttr l) - 1).
Proof.
  induction l as [|a l IH] using rev_ind.
  - exists []. split; [|split; [constructor|simpl; lia]].
    intros S. simpl. unfold ret. now rewrite addDiags_nil.
  - destruct IH as (ds & Hrun & Hshape & Hlen).
    exists (ds ++ newDiags l a). split; [|split].
    + intros S.
      rewrite checkLoop_app, (bind_Returns _ _ _ _ _ (Hrun S)). simpl.
      rewrite (bind_Returns _ _ _ _ _ (checkAttr_OptionsOf l a _)).
      unfold ret. now rewrite addDiags_app.
    + apply Forall_app. split.
      * eapply Forall_impl; [exact Hshape|].
        intros d (Hk & R & Option & v & i & Hin & Hloc).
        split; [exact Hk|]. exists R, Option, v, i.
        split; [apply in_or_app; now left|exact Hloc].
      * destruct a as [R idx|R Option v i]; [constructor|].
        eapply Forall_impl;
          [exact (proj1 (newDiags_shape l R Option v i))|].
        intros d [Hk Hloc]. split; [exact Hk|]. exists R, Option, v, i.
        split; [apply in_or_app; right; now left|exact Hloc].
    + rewrite length_app, List.filter_app, length_app.
      destruct a as [R idx|R Option v i]; [simpl; lia|].
      pose proof (proj2 (newDiags_shape l R Option v i)) as Hnew.
      pose proof (newDiags_first l (LoopHintAttr R Option v i)) as Hfirst.
      set (nd := newDiags l (LoopHintAttr R Option v i)) in *.
      destruct (List.filter isa_LoopHintAttr l) as [|x xs].
      * rewrite (Hfirst eq_refl). simpl in *. lia.
      * simpl in *. lia.
Qed.

(** X10. Every diagnostic of the check is the loop-compatibility error,
    and it is reported at the end of the range of a loop hint that is in
    the vector. A vector with n loop hints draws at most 2(n - 1) of them:
    none for a vector without loop hints or with a single one, and at most
    a duplicate and an incompatible report for each further hint. *)
Theorem CheckForIncompatibleAttributes_diagnostics `{ClangEnv}
    (Attrs : list Attr) :
  exists ds,
    (forall S,
        CheckForIncompatibleAttributes Attrs S =
          Returns Attrs (addDiags S ds)) /\
    Forall (fun d =>
              DiagKind d = err_pragma_loop_compatibility /\
              exists R Option v i,
                In (LoopHintAttr R Option v i) Attrs /\
                DiagLoc d = getEnd R) ds /\
    length ds <= 2 * (length (List.filter isa_LoopHintAttr Attrs) - 1).
Proof.
  destruct (checkLoop_diags Attrs) as (ds & Hrun & Hshape & Hlen).
  exists ds. split; [|split; assumption].
  intros S. unfold CheckForIncompatibleAttributes.
  now rewrite (bind_Returns _ _ _ _ _ (Hrun S)).
Qed.

Lemma CheckForIncompatibleAttributes_two `{ClangEnv} a b S :
  CheckForIncompatibleAttributes [a; b] S =
    Returns [a; b] (addDiags S (newDiags [a] b)).
Proof.
  unfold CheckForIncompatibleAttributes.
  assert (Hrun : checkLoop [a; b] Options0 S =
                 Returns (OptionsOf [a; b]) (addDiags S (newDiags [a] b))).
  { change Options0 with (OptionsOf []). simpl.
    rewrite (bind_Returns _ _ _ _ _ (checkAttr_OptionsOf [] a S)).
    rewrite (newDiags_first [] a eq_refl), addDiags_nil. simpl.
    rewrite (bind_Returns _ _ _ _ _ (checkAttr_OptionsOf [a] b S)).
    reflexivity. }
  now rewrite (bind_Returns _ _ _ _ _ Hrun).
Qed.

(** X11. Two loop hints on one statement pass the check without a
    diagnostic exactly when they belong to different categories, or when
    they are the enable/disable hint and the numeric hint of one category
    and the enable/disable hint has a value other than 0 (enable); the
    order of the two makes no difference to that. Two hints with the same
    option, and disable next to a numeric hint of its category, always
    draw a diagnostic. *)
Theorem two_hints_silent_iff `{ClangEnv}
    (R1 R2 : SourceRange) (Option1 Option2 : OptionType) (v1 v2 : Z)
    (i1 i2 : bool) :
  exists ds,
    (forall S,
        CheckForIncompatibleAttributes
            [LoopHintAttr R1 Option1 v1 i1; LoopHintAttr R2 Option2 v2 i2] S =
          Returns
            [LoopHintAttr R1 Option1 v1 i1; LoopHintAttr R2 Option2 v2 i2]
            (addDiags S ds)) /\
    (ds = [] <->
     CategoryOf Option1 <> CategoryOf Option2 \/
     (isEnableOption Option1 = true /\ isEnableOption Option2 = false /\
      v1 <> 0%Z) \/
     (isEnableOption Option1 = false /\ isEnableOption Option2 = true /\
      v2 <> 0%Z)).
Proof.
  exists (newDiags [LoopHintAttr R1 Option1 v1 i1]
            (LoopHintAttr R2 Option2 v2 i2)).
  split; [intros S; apply CheckForIncompatibleAttributes_two|].
  unfold newDiags, duplicateDiags, disabledWithValue, trackerOf, bool_of_int.
  destruct Option1, Option2; simpl;
    try destruct (Z.eqb_spec v1 0); try destruct (Z.eqb_spec v2 0); simpl;
    (split;
     [ intros Hds; try discriminate Hds;
       first [ left; discriminate
             | right; left; repeat split; assumption
             | right; right; repeat split; assumption ]
     | intros [Hc|[(He1 & He2 & Hv)|(He1 & He2 & Hv)]];
       first [ reflexivity
             | exfalso; apply Hc; reflexivity
             | discriminate
             | contradiction ] ]).
Qed.

(** A for loop under vectorize(enable) and unroll_count(4) comes back as
    an attributed statement with the two loop hints; a null statement in a
    switch under a fallthrough attribute comes back attributed with the
    fallthrough record. *)
Lemma ProcessStmtAttributes_records_fit_witness :
  (exists a Attrs,
     AttributedStmt 18
       [LoopHintAttr (mkSourceRange 20 40) Vectorize 1 true;
        LoopHintAttr (mkSourceRange 42 58) UnrollCount 4 true]
       (PlainStmt ForStmtClass 60) =
       AttributedStmt (getBegin (mkSourceRange 18 59)) (a :: Attrs)
         (PlainStmt ForStmtClass 60) /\
     Forall recordOk (a :: Attrs) /\
     (isa_NullStmt (PlainStmt ForStmtClass 60) = true /\
      Forall (fun a' => isa_LoopHintAttr a' = false) (a :: Attrs) \/
      isLoopStmtClass (getStmtClass (PlainStmt ForStmtClass 60)) = true /\
      Forall (fun a' => isa_LoopHintAttr a' = true) (a :: Attrs))) /\
  (exists a Attrs,
     AttributedStmt 10 [FallThroughAttr (mkSourceRange 12 23) 2]
       (PlainStmt NullStmtClass 30) =
       AttributedStmt (getBegin (mkSourceRange 10 25)) (a :: Attrs)
         (PlainStmt NullStmtClass 30) /\
     Forall recordOk (a :: Attrs) /\
     (isa_NullStmt (PlainStmt NullStmtClass 30) = true /\
      Forall (fun a' => isa_LoopHintAttr a' = false) (a :: Attrs) \/
      isLoopStmtClass (getStmtClass (PlainStmt NullStmtClass 30)) = true /\
      Forall (fun a' => isa_LoopHintAttr a' = true) (a :: Attrs))).
Proof.
  split.
  - destruct (ProcessStmtAttributes_records_fit (H := LitEnv)
                (PlainStmt ForStmtClass 60)
                [loopHintAt (mkSourceRange 20 40) "vectorize"
                   (Some "enable"%string) None;
                 loopHintAt (mkSourceRange 42 58) "unroll_count" None
                   (Some (IntegerLiteral 4))]
                (mkSourceRange 18 59) (emptySema []) _ _ eq_refl)
      as [Hsame|Hwrapped]; [discriminate Hsame|exact Hwrapped].
  - destruct (ProcessStmtAttributes_records_fit (H := LitEnv)
                (PlainStmt NullStmtClass 30)
                [fallthroughAt (mkSourceRange 12 23) 2]
                (mkSourceRange 10 25) (emptySema [7]) _ _ eq_refl)
      as [Hsame|Hwrapped]; [discriminate Hsame|exact Hwrapped].
Defined.

(** * Option resolution inside the handler *)

(** C3. The handler resolves the option from the spelling in slot 0 and
    from nothing else: on a loop, with the arguments in shape, its whole
    outcome is that of the option the switch yields for that spelling, and
    the record it returns carries that option. The switch maps vectorize,
    vectorize_width, interleave, interleave_count, unroll and unroll_count
    to their own options by exact comparison and every other spelling to
    Vectorize. The only diagnostics the handler can then raise are the
    invalid-keyword and invalid-value errors of the value, so an unknown
    spelling is never diagnosed as such: with the value enable it yields a
    Vectorize record and no diagnostic at all, and in every case it behaves
    as if vectorize had been written. *)
Theorem OptionSwitch_resolution `{ClangEnv} :
  (OptionSwitch "vectorize" = Vectorize /\
   OptionSwitch "vectorize_width" = VectorizeWidth /\
   OptionSwitch "interleave" = Interleave /\
   OptionSwitch "interleave_count" = InterleaveCount /\
   OptionSwitch "unroll" = Unroll /\
   OptionSwitch "unroll_count" = UnrollCount) /\
  (forall Name, ~ In Name OptionSpellings -> OptionSwitch Name = Vectorize) /\
  (forall St A Range S L Name VL E rest,
      isLoopStmtClass (getStmtClass St) = true ->
      Args A = ArgIdent (Some (mkIdentifierLoc L (Some Name)))
               :: ArgIdent (Some VL) :: ArgExpr E :: rest ->
      handleLoopHintAttr St A Range S =
        match loopHintValue (OptionSwitch Name) (Ident VL) E with
        | inr v =>
            Returns
              (Some (LoopHintAttr (getRange A) (OptionSwitch Name) v true))
              (addNodes S
                 [NodeAttr
                    (LoopHintAttr (getRange A) (OptionSwitch Name) v true)])
        | inl id => Returns None (addDiags S [mkDiagnostic (Loc VL) id []])
        end) /\
  (forall Option ValueInfo ValueExpr id,
      loopHintValue Option ValueInfo ValueExpr = inl id ->
      id = err_pragma_loop_invalid_keyword \/
      id = err_pragma_loop_invalid_value) /\
  (forall St A Range S L Name VL E rest,
      isLoopStmtClass (getStmtClass St) = true ->
      Args A = ArgIdent (Some (mkIdentifierLoc L (Some Name)))
               :: ArgIdent (Some VL) :: ArgExpr E :: rest ->
      ~ In Name OptionSpellings ->
      Ident VL = Some "enable"%string ->
      handleLoopHintAttr St A Range S =
        Returns (Some (LoopHintAttr (getRange A) Vectorize 1 true))
          (addNodes S [NodeAttr (LoopHintAttr (getRange A) Vectorize 1 true)])) /\
  (forall Name St k n R d i L rest Range S,
      ~ In Name OptionSpellings ->
      handleLoopHintAttr St
          (mkAttributeList k n R d i
             (ArgIdent (Some (mkIdentifierLoc L (Some Name))) :: rest))
          Range S =
      handleLoopHintAttr St
          (mkAttributeList k n R d i
             (ArgIdent (Some (mkIdentifierLoc L (Some "vectorize"%string)))
              :: rest))
          Range S).
Proof.
  split; [repeat split|]. split; [apply OptionSwitch_default|].
  split; [|split; [|split]].
  - intros St A Range S L Name VL E rest HL HA.
    exact (handleLoopHintAttr_run St A Range S L Name VL E rest HL HA).
  - intros Option ValueInfo ValueExpr id. unfold loopHintValue.
    destruct (isEnableOption Option).
    + destruct ValueInfo as [ValueName|]; [|intros [= <-]; now left].
      destruct (String.eqb ValueName "disable"); [discriminate|].
      destruct (String.eqb ValueName "enable"); [discriminate|].
      intros [= <-]; now left.
    + destruct ValueExpr as [E|]; [|intros [= <-]; now right].
      destruct (isIntegerConstantExpr E) as [ValueAPS|];
        [|intros [= <-]; now right].
      destruct (int_of_int64 (getSExtValue ValueAPS) <? 1)%Z;
        [intros [= <-]; now right|discriminate].
  - intros St A Range S L Name VL E rest HL HA HN HV.
    rewrite (handleLoopHintAttr_run St A Range S L Name VL E rest HL HA).
    rewrite (OptionSwitch_default Name HN), HV. reflexivity.
  - intros Name St k n R d i L rest Range S HN.
    apply handleLoopHintAttr_option_name.
    now rewrite (OptionSwitch_default Name HN).
Qed.

(** unroll_count(8) on a while loop yields an UnrollCount record; the
    misspelling Unroll with enable yields a Vectorize record; neither run
    raises a diagnostic. *)
Lemma OptionSwitch_resolution_witness :
  handleLoopHintAttr (PlainStmt WhileStmtClass 30)
      (loopHintAt (mkSourceRange 3 20) "unroll_count" None
         (Some (IntegerLiteral 8)))
      (mkSourceRange 1 21) (emptySema []) =
    Returns (Some (LoopHintAttr (mkSourceRange 3 20) UnrollCount 8 true))
      (mkSema (mkFunctionScopeInfo []) []
         [NodeAttr (LoopHintAttr (mkSourceRange 3 20) UnrollCount 8 true)]) /\
  handleLoopHintAttr (PlainStmt WhileStmtClass 30)
      (loopHintAt (mkSourceRange 3 20) "Unroll" (Some "enable"%string) None)
      (mkSourceRange 1 21) (emptySema []) =
    Returns (Some (LoopHintAttr (mkSourceRange 3 20) Vectorize 1 true))
      (mkSema (mkFunctionScopeInfo []) []
         [NodeAttr (LoopHintAttr (mkSourceRange 3 20) Vectorize 1 true)]).
Proof.
  assert (HN : ~ In "Unroll"%string OptionSpellings)
    by (simpl; intros HF; repeat destruct HF as [HF|HF]; discriminate || exact HF).
  split.
  - exact (proj1 (proj2 (proj2 (OptionSwitch_resolution (H := LitEnv))))
             (PlainStmt WhileStmtClass 30)
             (loopHintAt (mkSourceRange 3 20) "unroll_count" None
                (Some (IntegerLiteral 8)))
             (mkSourceRange 1 21) (emptySema [])
             3 "unroll_count"%string (mkIdentifierLoc 4 None)
             (Some (IntegerLiteral 8)) [] eq_refl eq_refl).
  - exact (proj1 (proj2 (proj2 (proj2 (proj2
             (OptionSwitch_resolution (H := LitEnv))))))
             (PlainStmt WhileStmtClass 30)
             (loopHintAt (mkSourceRange 3 20) "Unroll"
                (Some "enable"%string) None)
             (mkSourceRange 1 21) (emptySema [])
             3 "Unroll"%string (mkIdentifierLoc 4 (Some "enable"%string))
             None [] eq_refl eq_refl HN eq_refl).
Defined.

(** * Duplicates over the whole check *)

Lemma OptionType_eqb_refl Option : OptionType_eqb Option Option = true.
Proof. now destruct Option. Qed.

Lemma checkLoop_snoc_run `{ClangEnv} l a ds S :
  checkLoop l Options0 S = Returns (OptionsOf l) (addDiags S ds) ->
  checkLoop (l ++ [a]) Options0 S =
    Returns (OptionsOf (l ++ [a])) (addDiags S (ds ++ newDiags l a)).
Proof.
  intros Hl. rewrite checkLoop_app, (bind_Returns _ _ _ _ _ Hl). simpl.
  rewrite (bind_Returns _ _ _ _ _ (checkAttr_OptionsOf l a _)).
  unfold ret. now rewrite addDiags_app.
Qed.

Lemma CheckForIncompatibleAttributes_of_checkLoop `{ClangEnv} l Options' S S' :
  checkLoop l Options0 S = Returns Options' S' ->
  CheckForIncompatibleAttributes l S = Returns l S'.
Proof.
  intros Hl. unfold CheckForIncompatibleAttributes.
  now rewrite (bind_Returns _ _ _ _ _ Hl).
Qed.

(** A hint whose option was seen before is reported as a duplicate of the
    last such hint, and then at most as incompatible. *)
Lemma newDiags_duplicate `{ClangEnv} l R Option old v i :
  lastHint Option l = Some old ->
  newDiags l (LoopHintAttr R Option v i) =
    (if isEnableOption Option
     then duplicateEnableDiag (getEnd R) Option (bool_of_int old) v
     else duplicateValueDiag (getEnd R) Option old v)
    :: if disabledWithValue
            (trackerOf (l ++ [LoopHintAttr R Option v i])
               (EnableOptionOf Option) (NumericOptionOf Option))
       then [incompatibleDiag (getEnd R)
               (trackerOf (l ++ [LoopHintAttr R Option v i])
                  (EnableOptionOf Option) (NumericOptionOf Option))]
       else [].
Proof.
  intros Hlast. unfold newDiags, duplicateDiags, trackerOf at 1; simpl.
  destruct (isEnableOption Option) eqn:HE.
  - rewrite (EnableOptionOf_enable _ HE), Hlast. reflexivity.
  - rewrite (NumericOptionOf_numeric _ HE), Hlast. reflexivity.
Qed.

(** C5. Over the whole check, started from the initial trackers: let the
    vector Attrs already hold a hint with the option of the arriving
    record, old being the value of the last such hint. Then after Attrs
    the tracker of the record's category has the flag of that half set
    (EnabledIsSet for an enable/disable record, ValueIsSet for a numeric
    one) and stores old. Checking Attrs followed by the record reports
    everything Attrs reports and then the duplicate diagnostic, at the end
    of the record's range, naming the option with the stored value and the
    option again with the new value (value names for enable/disable,
    numbers for numeric); at most the incompatible diagnostic follows. The
    tracker then stores the new value, its other half untouched, so a
    further record with the same option is reported as a duplicate of the
    new value, not of old. The vector comes back with the flagged record
    still in it. *)
Theorem duplicate_flagged_then_overwritten `{ClangEnv}
    (Attrs : list Attr) (R : SourceRange) (Option : OptionType)
    (old v : Z) (i : bool) :
  lastHint Option Attrs = Some old ->
  let a := LoopHintAttr R Option v i in
  let dup :=
    if isEnableOption Option
    then duplicateEnableDiag (getEnd R) Option (bool_of_int old) v
    else duplicateValueDiag (getEnd R) Option old v in
  exists ds inc St0 St1,
    Forall (fun d => isIncompatibleDiag d = true) inc /\
    length inc <= 1 /\
    (if isEnableOption Option
     then EnabledIsSet St0 = true /\ Enabled St0 = bool_of_int old /\
          EnabledIsSet St1 = true /\ Enabled St1 = bool_of_int v /\
          ValueIsSet St1 = ValueIsSet St0 /\ Value St1 = Value St0
     else ValueIsSet St0 = true /\ Value St0 = old /\
          ValueIsSet St1 = true /\ Value St1 = v /\
          EnabledIsSet St1 = EnabledIsSet St0 /\ Enabled St1 = Enabled St0) /\
    forall S,
      (exists Options1,
          checkLoop Attrs Options0 S = Returns Options1 (addDiags S ds) /\
          Options1 !! CategoryOf Option = Some St0) /\
      (exists Options2,
          checkLoop (Attrs ++ [a]) Options0 S =
            Returns Options2 (addDiags S (ds ++ dup :: inc)) /\
          Options2 !! CategoryOf Option = Some St1) /\
      CheckForIncompatibleAttributes Attrs S =
        Returns Attrs (addDiags S ds) /\
      CheckForIncompatibleAttributes (Attrs ++ [a]) S =
        Returns (Attrs ++ [a]) (addDiags S (ds ++ dup :: inc)) /\
      forall R' v' i',
        exists inc',
          Forall (fun d => isIncompatibleDiag d = true) inc' /\
          CheckForIncompatibleAttributes
              (Attrs ++ [a; LoopHintAttr R' Option v' i']) S =
            Returns (Attrs ++ [a; LoopHintAttr R' Option v' i'])
              (addDiags S
                 (ds ++ dup :: inc ++
                  (if isEnableOption Option
                   then duplicateEnableDiag (getEnd R') Option
                          (bool_of_int v) v'
                   else duplicateValueDiag (getEnd R') Option v v')
                  :: inc')).
Proof.
  intros Hlast a dup.
  destruct (checkLoop_OptionsOf Attrs) as [ds Hds].
  set (E := EnableOptionOf Option). set (N := NumericOptionOf Option).
  assert (Hlast' : lastHint Option (Attrs ++ [a]) = Some v).
  { subst a. rewrite lastHint_snoc. now rewrite OptionType_eqb_refl. }
  assert (Hinc : forall l R0 St,
             Forall (fun d => isIncompatibleDiag d = true)
               (if disabledWithValue St
                then [incompatibleDiag R0 St] else [] : list Diagnostic) /\
             length (if disabledWithValue St
                     then [incompatibleDiag R0 St] else [] : list Diagnostic)
             <= 1 + l).
  { intros l R0 St. destruct (disabledWithValue St); simpl;
      (split; [repeat constructor|lia]). }
  exists ds,
    (if disabledWithValue (trackerOf (Attrs ++ [a]) E N)
     then [incompatibleDiag (getEnd R) (trackerOf (Attrs ++ [a]) E N)]
     else []),
    (trackerOf Attrs E N), (trackerOf (Attrs ++ [a]) E N).
  split; [exact (proj1 (Hinc 0 _ _))|].
  split; [exact (proj2 (Hinc 0 _ _))|].
  split.
  { subst E N a. unfold trackerOf. rewrite !lastHint_snoc.
    destruct Option; simpl; rewrite Hlast; simpl; repeat split. }
  intros S.
  pose proof (checkLoop_snoc_run Attrs a ds S (Hds S)) as Hrun1.
  rewrite (newDiags_duplicate Attrs R Option old v i Hlast) in Hrun1.
  fold a E N dup in Hrun1.
  split; [|split; [|split; [|split]]].
  - exists (OptionsOf Attrs). split; [apply Hds|apply OptionsOf_lookup].
  - exists (OptionsOf (Attrs ++ [a])).
    split; [exact Hrun1|apply OptionsOf_lookup].
  - exact (CheckForIncompatibleAttributes_of_checkLoop _ _ _ _ (Hds S)).
  - exact (CheckForIncompatibleAttributes_of_checkLoop _ _ _ _ Hrun1).
  - intros R' v' i'.
    pose proof (checkLoop_snoc_run (Attrs ++ [a])
                  (LoopHintAttr R' Option v' i') _ S Hrun1) as Hrun2.
    rewrite (newDiags_duplicate (Attrs ++ [a]) R' Option v v' i' Hlast')
      in Hrun2.
    rewrite <- !app_assoc in Hrun2. simpl in Hrun2.
    eexists. split; [|
      exact (CheckForIncompatibleAttributes_of_checkLoop _ _ _ _ Hrun2)].
    exact (proj1 (Hinc 0 _ _)).
Qed.

(** vectorize(enable) followed by vectorize(disable), and unroll_count(8)
    followed by unroll_count(2): the second hint is reported against the
    first. *)
Lemma duplicate_flagged_then_overwritten_witness :
  (exists ds inc,
     forall S,
       CheckForIncompatibleAttributes (H := LitEnv)
           [LoopHintAttr (mkSourceRange 10 21) Vectorize 1 true] S =
         Returns [LoopHintAttr (mkSourceRange 10 21) Vectorize 1 true]
           (addDiags S ds) /\
       CheckForIncompatibleAttributes (H := LitEnv)
           [LoopHintAttr (mkSourceRange 10 21) Vectorize 1 true;
            LoopHintAttr (mkSourceRange 30 41) Vectorize 0 true] S =
         Returns
           [LoopHintAttr (mkSourceRange 10 21) Vectorize 1 true;
            LoopHintAttr (mkSourceRange 30 41) Vectorize 0 true]
           (addDiags S
              (ds ++
               mkDiagnostic 41 err_pragma_loop_compatibility
                 [DiagBool true; DiagString "vectorize"; DiagString "enable";
                  DiagString "vectorize"; DiagString "disable"]
               :: inc))) /\
  (exists ds inc,
     forall S,
       CheckForIncompatibleAttributes (H := LitEnv)
           [LoopHintAttr (mkSourceRange 10 21) UnrollCount 8 true] S =
         Returns [LoopHintAttr (mkSourceRange 10 21) UnrollCount 8 true]
           (addDiags S ds) /\
       CheckForIncompatibleAttributes (H := LitEnv)
           [LoopHintAttr (mkSourceRange 10 21) UnrollCount 8 true;
            LoopHintAttr (mkSourceRange 50 62) UnrollCount 2 true] S =
         Returns
           [LoopHintAttr (mkSourceRange 10 21) UnrollCount 8 true;
            LoopHintAttr (mkSourceRange 50 62) UnrollCount 2 true]
           (addDiags S
              (ds ++
               mkDiagnostic 62 err_pragma_loop_compatibility
                 [DiagBool true; DiagString "unroll_count"; DiagInt 8;
                  DiagString "unroll_count"; DiagInt 2]
               :: inc))).
Proof.
  split.
  - destruct (duplicate_flagged_then_overwritten (H := LitEnv)
                [LoopHintAttr (mkSourceRange 10 21) Vectorize 1 true]
                (mkSourceRange 30 41) Vectorize 1 0 true eq_refl)
      as (ds & inc & St0 & St1 & _ & _ & _ & Hrun).
    exists ds, inc. intros S.
    destruct (Hrun S) as (_ & _ & H1 & H2 & _).
    split; [exact H1|exact H2].
  - destruct (duplicate_flagged_then_overwritten (H := LitEnv)
                [LoopHintAttr (mkSourceRange 10 21) UnrollCount 8 true]
                (mkSourceRange 50 62) UnrollCount 8 2 true eq_refl)
      as (ds & inc & St0 & St1 & _ & _ & _ & Hrun).
    exists ds, inc. intros S.
    destruct (Hrun S) as (_ & _ & H1 & H2 & _).
    split; [exact H1|exact H2].
Defined.

(** The same two runs, computed: nothing but the duplicate is reported. *)
Example duplicate_runs :
  CheckForIncompatibleAttributes (H := LitEnv)
      [LoopHintAttr (mkSourceRange 10 21) Vectorize 1 true;
       LoopHintAttr (mkSourceRange 30 41) Vectorize 0 true] (emptySema []) =
    Returns
      [LoopHintAttr (mkSourceRange 10 21) Vectorize 1 true;
       LoopHintAttr (mkSourceRange 30 41) Vectorize 0 true]
      (mkSema (mkFunctionScopeInfo [])
         [mkDiagnostic 41 err_pragma_loop_compatibility
            [DiagBool true; DiagString "vectorize"; DiagString "enable";
             DiagString "vectorize"; DiagString "disable"]]
         []) /\
  CheckForIncompatibleAttributes (H := LitEnv)
      [LoopHintAttr (mkSourceRange 10 21) UnrollCount 8 true;
       LoopHintAttr (mkSourceRange 50 62) UnrollCount 2 true] (emptySema []) =
    Returns
      [LoopHintAttr (mkSourceRange 10 21) UnrollCount 8 true;
       LoopHintAttr (mkSourceRange 50 62) UnrollCount 2 true]
      (mkSema (mkFunctionScopeInfo [])
         [mkDiagnostic 62 err_pragma_loop_compatibility
            [DiagBool true; DiagString "unroll_count"; DiagInt 8;
             DiagString "unroll_count"; DiagInt 2]]
         []).
Proof. split; reflexivity. Qed.

(** * Argument slots and the two builds *)

(** C10, as the code has it. On a statement that is no loop the handler
    returns without reading any argument. On a loop it reads through the
    objects in slots 0 and 1 with no test in front: a null object in
    either slot is a null dereference, and the handler returns only if
    both slots hold identifier objects and the option's identifier is
    there. When slots 0 and 1 hold identifier objects and the option's
    identifier is not null (what the assertion in front of the name lookup
    demands), no run ends in a null dereference, with assertions compiled
    in or out and whatever the rest of the attribute looks like; a value
    slot whose object is present but whose identifier is null is handled,
    for an enable/disable option, by the invalid-keyword error at the
    value's location with no record. *)
Theorem handleLoopHintAttr_slot_precondition `{ClangEnv}
    (St : Stmt) (A : AttributeList) (Range : SourceRange) (S : Sema) :
  (isLoopStmtClass (getStmtClass St) = false ->
   handleLoopHintAttr St A Range S =
     Returns None
       (addDiags S
          [mkDiagnostic (getLocStart St) err_pragma_loop_precedes_nonloop []])) /\
  (isLoopStmtClass (getStmtClass St) = true ->
   (exists r S', handleLoopHintAttr St A Range S = Returns r S') ->
   identSlotsPresent A /\ optionSlotsPresent A) /\
  (isLoopStmtClass (getStmtClass St) = true ->
   Args A !! 0 = Some (ArgIdent None) \/
   (exists OL, Args A !! 0 = Some (ArgIdent (Some OL)) /\
               Args A !! 1 = Some (ArgIdent None)) ->
   handleLoopHintAttr St A Range S = Aborts NullDereference) /\
  (optionSlotsPresent A ->
   handleLoopHintAttr St A Range S <> Aborts NullDereference) /\
  (isLoopStmtClass (getStmtClass St) = true ->
   forall L Name VL E rest,
     Args A = ArgIdent (Some (mkIdentifierLoc L (Some Name)))
              :: ArgIdent (Some VL) :: ArgExpr E :: rest ->
     Ident VL = None ->
     isEnableOption (OptionSwitch Name) = true ->
     handleLoopHintAttr St A Range S =
       Returns None
         (addDiags S
            [mkDiagnostic (Loc VL) err_pragma_loop_invalid_keyword []])).
Proof.
  split; [|split; [|split; [|split]]].
  - apply handleLoopHintAttr_nonloop.
  - intros HL Hrun.
    apply (handleLoopHintAttr_returns_iff St A Range S HL) in Hrun.
    split; [now apply loopHintArgs_identSlotsPresent|].
    destruct Hrun as (L & Name & VL & E & rest & HA).
    unfold optionSlotsPresent. rewrite HA.
    exists (mkIdentifierLoc L (Some Name)), Name, VL. now repeat split.
  - intros HL Hnull. unfold_loop_hint. rewrite HL. simpl.
    destruct Hnull as [H0|(OL & H0 & H1)].
    + rewrite H0. reflexivity.
    + rewrite H0, H1. reflexivity.
  - intros (OL & Name & VL & H0 & HN & H1). unfold_loop_hint.
    destruct (isLoopStmtClass (getStmtClass St)); simpl; [|discriminate].
    rewrite H0, H1. simpl.
    destruct (Args A !! 2) as [[e2|il2]|]; simpl; try discriminate.
    rewrite HN. simpl.
    destruct NDEBUG; simpl;
      (destruct (isEnableOption (OptionSwitch Name));
       [ destruct (Ident VL) as [ValueName|]; [|discriminate];
         destruct (String.eqb ValueName "disable"); [discriminate|];
         destruct (String.eqb ValueName "enable"); discriminate
       | destruct (isNumericOption (OptionSwitch Name)); [|discriminate];
         destruct e2 as [E|]; [|discriminate];
         destruct (isIntegerConstantExpr E) as [ValueAPS|]; [|discriminate];
         destruct (int_of_int64 (getSExtValue ValueAPS) <? 1)%Z;
         discriminate ]).
  - intros HL L Name VL E rest HA HV HE.
    rewrite (handleLoopHintAttr_run St A Range S L Name VL E rest HL HA).
    unfold loopHintValue. now rewrite HE, HV.
Qed.

(** unroll with no value identifier on a while loop; the same hint with
    the value slot left null; and a loop hint with no arguments at all in
    front of an if statement. *)
Lemma handleLoopHintAttr_slot_precondition_witness :
  handleLoopHintAttr (PlainStmt WhileStmtClass 90)
      (loopHintAt (mkSourceRange 70 80) "unroll" None None)
      (mkSourceRange 70 80) (emptySema []) =
    Returns None
      (mkSema (mkFunctionScopeInfo [])
         [mkDiagnostic 71 err_pragma_loop_invalid_keyword []] []) /\
  handleLoopHintAttr (H := LitEnv) (PlainStmt WhileStmtClass 90)
      (mkAttributeList AT_LoopHint "loop"%string (mkSourceRange 70 80) false 0
         [ArgIdent (Some (mkIdentifierLoc 70 (Some "unroll"%string)));
          ArgIdent None; ArgExpr None])
      (mkSourceRange 70 80) (emptySema []) =
    Aborts NullDereference /\
  handleLoopHintAttr (H := LitEnv) (PlainStmt IfStmtClass 90)
      (mkAttributeList AT_LoopHint "loop"%string (mkSourceRange 70 80) false 0
         [])
      (mkSourceRange 70 80) (emptySema []) =
    Returns None
      (mkSema (mkFunctionScopeInfo [])
         [mkDiagnostic 90 err_pragma_loop_precedes_nonloop []] []).
Proof.
  split; [|split].
  - exact (proj2 (proj2 (proj2 (proj2
             (handleLoopHintAttr_slot_precondition (H := LitEnv)
                (PlainStmt WhileStmtClass 90)
                (loopHintAt (mkSourceRange 70 80) "unroll" None None)
                (mkSourceRange 70 80) (emptySema [])))))
             eq_refl 70 "unroll"%string (mkIdentifierLoc 71 None) None []
             eq_refl eq_refl eq_refl).
  - apply (proj1 (proj2 (proj2
             (handleLoopHintAttr_slot_precondition (H := LitEnv)
                (PlainStmt WhileStmtClass 90)
                (mkAttributeList AT_LoopHint "loop"%string
                   (mkSourceRange 70 80) false 0
                   [ArgIdent (Some (mkIdentifierLoc 70 (Some "unroll"%string)));
                    ArgIdent None; ArgExpr None])
                (mkSourceRange 70 80) (emptySema []))))
             eq_refl).
    right. exists (mkIdentifierLoc 70 (Some "unroll"%string)).
    split; reflexivity.
  - exact (proj1
             (handleLoopHintAttr_slot_precondition (H := LitEnv)
                (PlainStmt IfStmtClass 90)
                (mkAttributeList AT_LoopHint "loop"%string
                   (mkSourceRange 70 80) false 0 [])
                (mkSourceRange 70 80) (emptySema []))
             eq_refl).
Defined.

(** C10 as written fails twice. In front of an if statement the handler
    returns although the attribute has no argument slot at all, so slots 0
    and 1 are not needed for it to return. And with assertions compiled
    out, a for loop whose slots 0 and 1 both hold identifier objects, the
    first with a null identifier, ends in a null dereference at the name
    lookup. *)
Lemma slot_precondition_counterexample :
  ((exists r S',
       handleLoopHintAttr (H := LitEnv) (PlainStmt IfStmtClass 90)
         (mkAttributeList AT_LoopHint "loop"%string (mkSourceRange 70 80)
            false 0 [])
         (mkSourceRange 70 80) (emptySema []) = Returns r S') /\
   ~ identSlotsPresent
       (mkAttributeList (H := LitEnv) AT_LoopHint "loop"%string
          (mkSourceRange 70 80) false 0 [])) /\
  (identSlotsPresent
     (mkAttributeList (H := LitEnvRelease) AT_LoopHint "loop"%string
        (mkSourceRange 70 80) false 0
        [ArgIdent (Some (mkIdentifierLoc 70 None));
         ArgIdent (Some (mkIdentifierLoc 71 (Some "enable"%string)));
         ArgExpr None]) /\
   handleLoopHintAttr (H := LitEnvRelease) (PlainStmt ForStmtClass 90)
     (mkAttributeList AT_LoopHint "loop"%string (mkSourceRange 70 80)
        false 0
        [ArgIdent (Some (mkIdentifierLoc 70 None));
         ArgIdent (Some (mkIdentifierLoc 71 (Some "enable"%string)));
         ArgExpr None])
     (mkSourceRange 70 80) (emptySema []) = Aborts NullDereference).
Proof.
  split; split.
  - eexists _, _. reflexivity.
  - intros (OL & VL & H0 & _). discriminate H0.
  - eexists _, _. split; reflexivity.
  - reflexivity.
Qed.
